(** * PyWO core: geometry resolution and event dispatch

    A shallow embedding of [core.py]: the geometric value types
    ([Gravity], [Geometry], [Borders]), the two geometry computations of
    [Window] ([geometry] and [move_resize]) and the handler registry of
    [EventDispatcher] ([register], [unregister], [__dispatch], [run]).

    Conventions of the embedding.
    - Python 2 integers are unbounded: they are [Z].  On integers [/] is
      floor division and [%] takes the sign of the divisor, which is what
      [Z.div] and [Z.modulo] compute (the divisor is never [0] where the
      code divides, the increment being tested for truth first).
    - Gravity fractions and window positions, which Python computes with
      [float], are exact rationals [Q].  This is the source as long as no
      float operation rounds; the statements below use the arithmetic of
      [Q] only on integers and on the gravity [(0, 0)], compare
      coordinates with one half, or name an expression of the source
      without computing with it.
    - A Python value used as a condition is true when it is not [0]
      ([truthy]); an absent hints record is [None].
    - Dictionaries are [gmap]s, the result of [set([...])] is a [gset].
    - A raised exception is the [Raise] outcome of a call. *)

From Stdlib Require Import ZArith QArith Lia Lqa Ascii String List.
From stdpp Require Import gmap.

(** ** Python runtime outcomes *)

Inductive exn : Type :=
| UnboundLocalError (name : string)
| KeyError (key : Z)
| RuntimeError (msg : string).

Inductive result (A : Type) : Type :=
| Return (a : A)
| Raise (e : exn).
Arguments Return {A} a.
Arguments Raise {A} e.

Definition truthy (z : Z) : bool := negb (z =? 0)%Z.

(** ** Geometric value types *)

Module Gravity.

Record t : Type := mk { x : Q; y : Q }.

Definition is_middle (g : t) : bool :=
  Qeq_bool (x g) (1 # 2) && Qeq_bool (y g) (1 # 2).

(** [invert]: the locals [x] and [y] are bound only under their flag;
    [Gravity(x, y)] reads [x] first, then [y].  A flipped coordinate is
    the rational [1 - c]; the float [1.0 - c] of the source can differ
    from it by rounding. *)
Definition invert (self : t) (vertical horizontal : bool) : result t :=
  let y' := if vertical then Some (1 - y self)%Q else None in
  let x' := if horizontal then Some (1 - x self)%Q else None in
  match x', y' with
  | None, _ => Raise (UnboundLocalError "x")
  | Some _, None => Raise (UnboundLocalError "y")
  | Some vx, Some vy => Return (mk vx vy)
  end.

(** [__eq__]: comparison of the coordinate pairs as numbers. *)
Definition eqb (a b : t) : bool :=
  Qeq_bool (x a) (x b) && Qeq_bool (y a) (y b).

(** [a < b] on the rationals. *)
Definition Qlt_bool (a b : Q) : bool := negb (Qle_bool b a).

(** The properties [is_top], [is_bottom], [is_left] and [is_right]. *)
Definition is_top (self : t) : bool :=
  Qlt_bool (y self) (1 # 2) || is_middle self.

Definition is_bottom (self : t) : bool :=
  Qlt_bool (1 # 2) (y self) || is_middle self.

Definition is_left (self : t) : bool :=
  Qlt_bool (x self) (1 # 2) || is_middle self.

Definition is_right (self : t) : bool :=
  Qlt_bool (1 # 2) (x self) || is_middle self.

End Gravity.

Module Geometry.

Record t : Type := mk { x : Q; y : Q; width : Z; height : Z }.

Definition DEFAULT_GRAVITY : Gravity.t := Gravity.mk 0 0.

(** [__init__]: the size is stored first, the top-left corner is
    computed back from the gravity point.  The arguments are integers,
    as in the calls of the source modelled here, where [int] changes
    nothing. *)
Definition init (x0 y0 width0 height0 : Z) (gravity : Gravity.t) : t :=
  let w := width0 in
  let h := height0 in
  mk (inject_Z x0 - inject_Z w * Gravity.x gravity)%Q
     (inject_Z y0 - inject_Z h * Gravity.y gravity)%Q
     w h.

Definition x2 (g : t) : Q := (x g + inject_Z (width g))%Q.
Definition y2 (g : t) : Q := (y g + inject_Z (height g))%Q.

(** [__eq__]: comparison of the four fields as numbers. *)
Definition eqb (a b : t) : bool :=
  Qeq_bool (x a) (x b) && Qeq_bool (y a) (y b)
  && (width a =? width b)%Z && (height a =? height b)%Z.

End Geometry.

Module Borders.

Record t : Type := mk { left : Z; right : Z; top : Z; bottom : Z }.

Definition horizontal (b : t) : Z := (left b + right b)%Z.
Definition vertical (b : t) : Z := (top b + bottom b)%Z.

End Borders.

(** ** Size hints, as read from [WM_NORMAL_HINTS] *)

Record WMNormalHints : Type := mkHints {
  min_width : Z;  min_height : Z;
  max_width : Z;  max_height : Z;
  width_inc : Z;  height_inc : Z;
  base_width : Z; base_height : Z;
  win_gravity : Z
}.

(** [X.StaticGravity] of the X11 protocol. *)
Definition StaticGravity : Z := 10.

(** [if hints and cond(hints): v = upd(hints)] *)
Definition when_hint {A : Type} (hints : option WMNormalHints)
    (cond : WMNormalHints -> bool) (upd : WMNormalHints -> A) (old : A) : A :=
  match hints with
  | Some h => if cond h then upd h else old
  | None => old
  end.

Module Window.

(** The arguments of [self._win.configure]. *)
Record configure : Type :=
  mkConfigure { cfg_x : Q; cfg_y : Q; cfg_width : Z; cfg_height : Z }.

(** [geometry]: [raw] is the result of [__geometry()], [borders] the
    result of [__borders()], [adjust_geometry] the window manager
    quirk. *)
Definition geometry (adjust_geometry : bool)
    (raw borders : Z * Z * Z * Z) : Geometry.t :=
  let '(x, y, width, height) := raw in
  let '(left', right', top', bottom') := borders in
  let x := if adjust_geometry then (x - left')%Z else x in
  let y := if adjust_geometry then (y - top')%Z else y in
  Geometry.init x y (width + left' + right')%Z (height + top' + bottom')%Z
                Geometry.DEFAULT_GRAVITY.

Section MoveResize.

Variable borders : Z * Z * Z * Z.          (* self.__borders() *)
Variable current : Z * Z * Z * Z.          (* self.__geometry() *)
Variable hints : option WMNormalHints.     (* get_wm_normal_hints() *)

(** [move_resize]: the result is the request handed to
    [self._win.configure].  Every rebinding of a local of the source
    is a [let] of the same name, in the order of the source. *)
Definition move_resize (geometry : Geometry.t) (on_resize : Gravity.t)
    : configure :=
  let '(left', right', top', bottom') := borders in
  let x := Geometry.x geometry in
  let y := Geometry.y geometry in
  let width := (Geometry.width geometry - (left' + right'))%Z in
  let height := (Geometry.height geometry - (top' + bottom'))%Z in
  let geometry_size := (width, height) in
  (* fix for windows of static gravity *)
  let '(x, y) :=
    when_hint hints (fun h => (win_gravity h =? StaticGravity)%Z)
      (fun _ => ((x + inject_Z left')%Q, (y + inject_Z top')%Q)) (x, y) in
  (* reduce size to maximal allowed value *)
  let width := when_hint hints (fun h => truthy (max_width h))
                 (fun h => Z.min width (max_width h)) width in
  let height := when_hint hints (fun h => truthy (max_height h))
                  (fun h => Z.min height (max_height h)) height in
  (* don't try to set size lower than minimal *)
  let width := when_hint hints (fun h => truthy (min_width h))
                 (fun h => Z.max width (min_width h)) width in
  let height := when_hint hints (fun h => truthy (min_height h))
                  (fun h => Z.max height (min_height h)) height in
  (* set correct size if it is incremental, take base in account *)
  let width :=
    when_hint hints (fun h => truthy (width_inc h))
      (fun h =>
         let base := if truthy (base_width h) then base_width h
                     else (current.1.2 mod width_inc h)%Z in
         let width := ((width - base) / width_inc h * width_inc h)%Z in
         let width := (width + base)%Z in
         if truthy (min_width h) && (width <? min_width h)%Z
         then (width + width_inc h)%Z else width)
      width in
  let height :=
    when_hint hints (fun h => truthy (height_inc h))
      (fun h =>
         let base := if truthy (base_height h) then base_height h
                     else (current.2 mod height_inc h)%Z in
         let height := ((height - base) / height_inc h * height_inc h)%Z in
         let height := (height + base)%Z in
         if truthy (height_inc h) && (height <? min_height h)%Z
         then (height + height_inc h)%Z else height)
      height in
  (* adjust position after size change *)
  let '(x, y) :=
    if negb ((width =? geometry_size.1)%Z && (height =? geometry_size.2)%Z)
    then ((x + inject_Z (geometry_size.1 - width) * Gravity.x on_resize)%Q,
          (y + inject_Z (geometry_size.2 - height) * Gravity.y on_resize)%Q)
    else (x, y) in
  mkConfigure x y width height.

(** *** The stages of [move_resize], named for the statements below *)

(** The requested content size ([geometry_size] in the source). *)
Definition requested_size (geometry : Geometry.t) : Z * Z :=
  let '(left', right', top', bottom') := borders in
  ((Geometry.width geometry - (left' + right'))%Z,
   (Geometry.height geometry - (top' + bottom'))%Z).

(** The requested position after the static-gravity fix. *)
Definition requested_position (geometry : Geometry.t) : Q * Q :=
  let '(left', right', top', bottom') := borders in
  when_hint hints (fun h => (win_gravity h =? StaticGravity)%Z)
    (fun _ => ((Geometry.x geometry + inject_Z left')%Q,
               (Geometry.y geometry + inject_Z top')%Q))
    (Geometry.x geometry, Geometry.y geometry).

(** The size after both clamps: the size the increment step starts
    from. *)
Definition clamp_width (width : Z) : Z :=
  let width := when_hint hints (fun h => truthy (max_width h))
                 (fun h => Z.min width (max_width h)) width in
  when_hint hints (fun h => truthy (min_width h))
    (fun h => Z.max width (min_width h)) width.

Definition clamp_height (height : Z) : Z :=
  let height := when_hint hints (fun h => truthy (max_height h))
                  (fun h => Z.min height (max_height h)) height in
  when_hint hints (fun h => truthy (min_height h))
    (fun h => Z.max height (min_height h)) height.

(** The base of the increments of a hints record. *)
Definition width_base (h : WMNormalHints) : Z :=
  if truthy (base_width h) then base_width h
  else (current.1.2 mod width_inc h)%Z.

Definition height_base (h : WMNormalHints) : Z :=
  if truthy (base_height h) then base_height h
  else (current.2 mod height_inc h)%Z.

(** The increment step. *)
Definition snap_width (width : Z) : Z :=
  when_hint hints (fun h => truthy (width_inc h))
    (fun h =>
       let width :=
         ((width - width_base h) / width_inc h * width_inc h
          + width_base h)%Z in
       if truthy (min_width h) && (width <? min_width h)%Z
       then (width + width_inc h)%Z else width)
    width.

Definition snap_height (height : Z) : Z :=
  when_hint hints (fun h => truthy (height_inc h))
    (fun h =>
       let height :=
         ((height - height_base h) / height_inc h * height_inc h
          + height_base h)%Z in
       if truthy (height_inc h) && (height <? min_height h)%Z
       then (height + height_inc h)%Z else height)
    height.

End MoveResize.

End Window.

(** ** Event dispatch *)

Module EventDispatcher.

(** An event handler: an object ([hid] stands for its identity) with a
    [mask] and the event [types] it handles. *)
Record Handler : Type := mkHandler { hid : N; mask : Z; types : list Z }.

Global Instance Handler_eq_dec : EqDecision Handler.
Proof. solve_decision. Defined.

(** A raw X event: [event.window.id] and [event.type]. *)
Record XEvent : Type := mkEvent { ev_window : Z; ev_type : Z }.

(** [EventDispatcher] is a [threading.Thread].  The life cycle of a
    thread object of the Python library: not yet started, running [run],
    or returned from [run]. *)
Inductive thread_state : Type := Initial | Started | Stopped.

(** [isAlive()]: started and not yet stopped. *)
Definition isAlive (th : thread_state) : bool :=
  match th with Started => true | _ => false end.

(** [start()]: a thread object can be started once only; a second call,
    also after [run] has returned, raises [RuntimeError]. *)
Definition start (th : thread_state) : result thread_state :=
  match th with
  | Initial => Return Started
  | _ => Raise (RuntimeError "threads can only be started once")
  end.

(** The dispatcher: [self.__handlers = {win_id: {event_type: handler}}]
    and the state of the thread it is. *)
Record t : Type := mk {
  handlers : gmap Z (gmap Z Handler);
  thread : thread_state
}.

(** [__init__] *)
Definition init : t := mk ∅ Initial.

(** [set([handler.mask for handler in d.values()])] *)
Definition mask_set (d : gmap Z Handler) : gset Z :=
  list_to_set ((fun kv => mask kv.2) <$> map_to_list d).

(** [register]: the state after the call and what the call gave.  The
    entry of the window exists when the loop over the types updates it.
    The registry is updated before the thread is looked at, so the update
    stays when [start()] raises. *)
Definition register (self : t) (window : Z) (handler : Handler)
    : t * result (gset Z) :=
  let hs := handlers self in
  let hs := match hs !! window with
            | None => <[window := ∅]> hs
            | Some _ => hs
            end in
  let hs := foldl (fun hs type =>
                     alter (fun d => <[type := handler]> d) window hs)
                  hs (types handler) in
  let masks := match hs !! window with
               | Some d => Return (mask_set d)
               | None => Raise (KeyError window)
               end in
  if isAlive (thread self) then (mk hs (thread self), masks)
  else match start (thread self) with
       | Return th => (mk hs th, masks)
       | Raise e => (mk hs (thread self), Raise e)
       end.

(** [unregister]: [handler] is [None] to unregister all handlers of
    the window.  The result [[]] of the source is the empty set. *)
Definition unregister (self : t) (window : Z) (handler : option Handler)
    : t * result (gset Z) :=
  let hs := handlers self in
  let hs := match handler, hs !! window with
            | None, Some _ => <[window := ∅]> hs
            | Some h, Some _ =>
                foldl (fun hs type =>
                         alter (fun d => delete type d) window hs)
                      hs (types h)
            | _, None => hs
            end in
  match hs !! window with
  | None => (mk hs (thread self), Raise (KeyError window))
  | Some d =>
      if decide (d = ∅)
      then (mk (delete window hs) (thread self), Return ∅)
      else (mk hs (thread self), Return (mask_set d))
  end.

(** What [__dispatch] does with an event. *)
Inductive dispatched : Type :=
| LoggedNoHandler (window : Z)              (* logging.error, dropped *)
| Skipped                                   (* unwanted event *)
| HandleEvent (h : Handler) (e : XEvent).   (* h.handle_event(e) *)

(** [__dispatch] *)
Definition dispatch (self : t) (event : XEvent) : dispatched :=
  match handlers self !! ev_window event with
  | None => LoggedNoHandler (ev_window event)
  | Some win_handlers =>
      match win_handlers !! ev_type event with
      | None => Skipped
      | Some h => HandleEvent h event
      end
  end.

(** One turn of the loop of [run], taken by the dispatcher thread: the
    test of [while self.__handlers], then the sleep and the dispatch of
    the events [pending] after it.  With an empty registry the loop is
    left and [run] returns: the thread has stopped.  (The handlers
    called are taken not to change the registry during the turn.) *)
Definition run_turn (self : t) (pending : list XEvent)
    : t * list dispatched :=
  if decide (handlers self = ∅)
  then (mk (handlers self) Stopped, [])
  else (self, dispatch self <$> pending).

(** What the callers and the dispatcher thread do, one at a time. *)
Inductive action : Type :=
| CallRegister (window : Z) (handler : Handler)
| CallUnregister (window : Z) (handler : option Handler)
| Wake (pending : list XEvent).

Inductive observation : Type :=
| Called (r : result (gset Z))
| Dispatched (ds : list dispatched)
| NotRunning.

(** The loop takes a turn only while the thread is alive. *)
Definition step (self : t) (a : action) : t * observation :=
  match a with
  | CallRegister window handler =>
      let '(s, r) := register self window handler in (s, Called r)
  | CallUnregister window handler =>
      let '(s, r) := unregister self window handler in (s, Called r)
  | Wake pending =>
      if isAlive (thread self)
      then let '(s, ds) := run_turn self pending in (s, Dispatched ds)
      else (self, NotRunning)
  end.

Fixpoint exec (self : t) (acts : list action) : t * list observation :=
  match acts with
  | [] => (self, [])
  | a :: acts =>
      let '(s, o) := step self a in
      let '(s', os) := exec s acts in
      (s', o :: os)
  end.

(** The handler registered for a window and an event type. *)
Definition handler_of (self : t) (window type : Z) : option Handler :=
  handlers self !! window ≫= fun d => d !! type.

(** All the handlers the registry holds for a window and a type. *)
Definition handlers_for (self : t) (window type : Z) : list Handler :=
  match handlers self !! window with
  | None => []
  | Some d => (filter (fun kv => kv.1 = type) (map_to_list d)).*2
  end.

(** The entry of a window after [register]. *)
Definition registered_entry (self : t) (window : Z) (handler : Handler)
    : gmap Z Handler :=
  foldl (fun d ty => <[ty := handler]> d)
        (default ∅ (handlers self !! window)) (types handler).

End EventDispatcher.

(** ** Errors of the code below *)

Inductive error : Type :=
| IndexError (msg : string)
| TypeError (msg : string).

(** ** [XObject]: event masks and key codes *)

Module XObject.

(** Modifier masks of the X11 protocol ([Xlib.X]). *)
Definition ShiftMask : Z := 1.
Definition ControlMask : Z := 4.
Definition Mod1Mask : Z := 8.
Definition Mod4Mask : Z := 64.
Definition AnyModifier : Z := 32768.

(** The dispatcher shared by all objects ([__EVENT_DISPATCHER]) and the
    [event_mask] attribute last set on each window by
    [change_attributes]. *)
Record t : Type := mk {
  dispatcher : EventDispatcher.t;
  event_mask : gmap Z Z
}.

(** The mask computed by [__set_event_mask]: the masks or-ed together,
    from [0]. *)
Definition or_masks (masks : gset Z) : Z :=
  foldl Z.lor 0%Z (elements masks).

(** [listen]: [id] is [self.id].  Nothing is set when [register]
    raises. *)
Definition listen (s : t) (id : Z) (event_handler : EventDispatcher.Handler)
    : t * result unit :=
  let '(d, r) := EventDispatcher.register (dispatcher s) id event_handler in
  match r with
  | Return masks => (mk d (<[id := or_masks masks]> (event_mask s)), Return tt)
  | Raise e => (mk d (event_mask s), Raise e)
  end.

(** [unlisten] *)
Definition unlisten (s : t) (id : Z)
    (event_handler : option EventDispatcher.Handler) : t * result unit :=
  let '(d, r) := EventDispatcher.unregister (dispatcher s) id event_handler in
  match r with
  | Return masks => (mk d (<[id := or_masks masks]> (event_mask s)), Return tt)
  | Raise e => (mk d (event_mask s), Raise e)
  end.

(** [__KEY_MODIFIERS] *)
Definition KEY_MODIFIERS : list (string * Z) :=
  [("Alt", Mod1Mask); ("Ctrl", ControlMask); ("Control", ControlMask);
   ("Shift", ShiftMask); ("Super", Mod4Mask); ("Win", Mod4Mask)]%string.

Fixpoint dict_get (d : list (string * Z)) (k : string) : option Z :=
  match d with
  | [] => None
  | (k', v) :: d => if String.eqb k' k then Some v else dict_get d k
  end.

(** [s.split(sep)] for a separator of one character. *)
Fixpoint split (sep : Ascii.ascii) (s : string) : list string :=
  match s with
  | EmptyString => [EmptyString]
  | String c rest =>
      if Ascii.eqb c sep then EmptyString :: split sep rest
      else match split sep rest with
           | [] => [String c EmptyString]
           | w :: ws => String c w :: ws
           end
  end.

(** The loop over the masks of [keycode]: names that are not modifiers
    are passed over. *)
Definition or_modifiers (masks : list string) : Z :=
  foldl (fun modifiers mask =>
           match dict_get KEY_MODIFIERS mask with
           | None => modifiers
           | Some m => Z.lor modifiers m
           end) 0%Z masks.

Section Keycode.

Variable string_to_keysym : string -> Z.     (* XK.string_to_keysym *)
Variable keysym_to_keycode : Z -> Z.         (* display.keysym_to_keycode *)

(** [keycode]: the key is the last part of [code] when no [key] is
    given ([split] gives at least one part, so [code[-1]] is there);
    [masks[0]] raises when no part is left. *)
Definition keycode (code key : string) : error + (Z * Z) :=
  let code := split "-"%char code in
  let '(key, masks) :=
    if String.eqb key ""%string
    then (List.last code ""%string, removelast code)
    else (key, code) in
  match masks with
  | [] => inl (IndexError "list index out of range")
  | mask0 :: _ =>
      let modifiers :=
        if negb (String.eqb mask0 ""%string) then or_modifiers masks
        else AnyModifier in
      inr (modifiers, keysym_to_keycode (string_to_keysym key))
  end.

End Keycode.

End XObject.

(** ** [WindowManager] *)

Module WindowManager.

(** [windows]: [windows_ids] is the result of [windows_ids()], a window
    stands for its id.  Calling the default [filter_method], [None],
    raises. *)
Definition windows (windows_ids : list Z) (filter_method : option (Z -> bool))
    : error + list Z :=
  match filter_method with
  | Some f => inr (List.filter f windows_ids)
  | None =>
      match windows_ids with
      | [] => inr []
      | _ :: _ => inl (TypeError "'NoneType' object is not callable")
      end
  end.

End WindowManager.

(** ** Predicates of the statements *)

(** Hints that constrain nothing: none at all, or a record without size
    fields and without the static gravity. *)
Definition free_hints (hints : option WMNormalHints) : Prop :=
  match hints with
  | None => True
  | Some h =>
      min_width h = 0%Z /\ min_height h = 0%Z /\ max_width h = 0%Z /\
      max_height h = 0%Z /\ width_inc h = 0%Z /\ height_inc h = 0%Z /\
      win_gravity h <> StaticGravity
  end.

(** A handler is held only for the types it declares. *)
Definition declared (d : EventDispatcher.t) : Prop :=
  forall w ty h, EventDispatcher.handler_of d w ty = Some h ->
                 ty ∈ EventDispatcher.types h.

(** Every handler registered in a run declares a type. *)
Definition all_typed (acts : list EventDispatcher.action) : Prop :=
  forall w h, EventDispatcher.CallRegister w h ∈ acts ->
              EventDispatcher.types h <> [].

(** No window has an entry without handlers. *)
Definition no_empty_entry (d : EventDispatcher.t) : Prop :=
  forall w d0, EventDispatcher.handlers d !! w = Some d0 -> d0 <> ∅.

(** The string has no character [sep]. *)
Definition without (sep : ascii) (s : string) : Prop :=
  ~ In sep (list_ascii_of_string s).

(** * Properties *)

Local Open Scope Z_scope.

(** ** Arithmetic of the embedding *)

Lemma truthy_true (z : Z) : truthy z = true <-> z <> 0.
Proof. unfold truthy. destruct (Z.eqb_spec z 0); simpl; intuition congruence. Qed.

Lemma truthy_false (z : Z) : truthy z = false <-> z = 0.
Proof. unfold truthy. destruct (Z.eqb_spec z 0); simpl; intuition congruence. Qed.

Lemma Q_anchor_origin (a b : Z) : (inject_Z a - inject_Z b * 0)%Q = inject_Z a.
Proof.
  unfold Qminus, Qplus, Qopp, Qmult, inject_Z. cbn [Qnum Qden].
  f_equal. lia.
Qed.

(** ** [Window.move_resize] seen as its stages *)

Lemma move_resize_stages borders current hints geometry on_resize :
  let req := Window.requested_size borders geometry in
  let pos := Window.requested_position borders hints geometry in
  let width := Window.snap_width current hints
                 (Window.clamp_width hints req.1) in
  let height := Window.snap_height current hints
                  (Window.clamp_height hints req.2) in
  Window.move_resize borders current hints geometry on_resize =
  if negb ((width =? req.1) && (height =? req.2))
  then Window.mkConfigure
         (pos.1 + inject_Z (req.1 - width) * Gravity.x on_resize)%Q
         (pos.2 + inject_Z (req.2 - height) * Gravity.y on_resize)%Q
         width height
  else Window.mkConfigure pos.1 pos.2 width height.
Proof.
  destruct borders as [[[l r] t] b].
  unfold Window.move_resize, Window.requested_size, Window.requested_position,
    Window.snap_width, Window.snap_height, Window.clamp_width,
    Window.clamp_height, Window.width_base, Window.height_base.
  destruct hints as [h|]; cbn [when_hint fst snd].
  - destruct (win_gravity h =? StaticGravity); cbn [fst snd];
      match goal with |- context [negb ?c] => destruct c end; reflexivity.
  - match goal with |- context [negb ?c] => destruct c end; reflexivity.
Qed.

Lemma move_resize_width borders current hints geometry on_resize :
  Window.cfg_width
    (Window.move_resize borders current hints geometry on_resize) =
  Window.snap_width current hints
    (Window.clamp_width hints (Window.requested_size borders geometry).1).
Proof.
  rewrite move_resize_stages.
  match goal with |- context [negb ?c] => destruct c end; reflexivity.
Qed.

Lemma move_resize_height borders current hints geometry on_resize :
  Window.cfg_height
    (Window.move_resize borders current hints geometry on_resize) =
  Window.snap_height current hints
    (Window.clamp_height hints (Window.requested_size borders geometry).2).
Proof.
  rewrite move_resize_stages.
  match goal with |- context [negb ?c] => destruct c end; reflexivity.
Qed.

(** ** Increments *)

Section Snap.

Variables (k base w0 : Z).
Hypothesis k_pos : 0 < k.

(** Floor division picks the largest multiple of the increment that,
    added to the base, stays within the size. *)
Lemma snap_largest :
  let j := (w0 - base) / k in
  base + k * j <= w0 < base + k * j + k /\
  (forall j', base + k * j' <= w0 -> j' <= j).
Proof.
  intros j. subst j.
  pose proof (Z.div_mod (w0 - base) k ltac:(lia)) as Hdm.
  pose proof (Z.mod_pos_bound (w0 - base) k k_pos) as Hb.
  split; [lia|].
  intros j' Hj'. nia.
Qed.

Lemma snap_divisible (j : Z) : (base + k * j - base) mod k = 0.
Proof.
  replace (base + k * j - base) with (j * k) by lia.
  apply Z.mod_mul. lia.
Qed.

End Snap.

(** The width after the increment step, for a positive increment. *)
Lemma snap_width_spec current h w0 :
  0 < width_inc h ->
  let k := width_inc h in
  let base := Window.width_base current h in
  let snapped := base + k * ((w0 - base) / k) in
  Window.snap_width current (Some h) w0 =
    (if truthy (min_width h) && (snapped <? min_width h)
     then snapped + k else snapped) /\
  (Window.snap_width current (Some h) w0 - base) mod k = 0.
Proof.
  intros Hk k base snapped.
  assert (Hw : Window.snap_width current (Some h) w0 =
               if truthy (min_width h) && (snapped <? min_width h)
               then snapped + k else snapped).
  { unfold Window.snap_width, when_hint.
    assert (truthy (width_inc h) = true) as -> by (apply truthy_true; lia).
    fold base. fold k.
    replace ((w0 - base) / k * k + base) with snapped
      by (unfold snapped; lia).
    reflexivity. }
  split; [exact Hw|].
  rewrite Hw. destruct (truthy (min_width h) && (snapped <? min_width h)).
  - replace (snapped + k) with (base + k * ((w0 - base) / k + 1))
      by (unfold snapped; lia).
    apply snap_divisible; lia.
  - unfold snapped. apply snap_divisible; lia.
Qed.

(** The height after the increment step: the extra increment is guarded
    by [height_inc], not by [min_height]. *)
Lemma snap_height_spec current h h0 :
  0 < height_inc h ->
  let k := height_inc h in
  let base := Window.height_base current h in
  let snapped := base + k * ((h0 - base) / k) in
  Window.snap_height current (Some h) h0 =
    (if snapped <? min_height h then snapped + k else snapped) /\
  (Window.snap_height current (Some h) h0 - base) mod k = 0.
Proof.
  intros Hk k base snapped.
  assert (Hw : Window.snap_height current (Some h) h0 =
               if snapped <? min_height h then snapped + k else snapped).
  { unfold Window.snap_height, when_hint.
    assert (truthy (height_inc h) = true) as -> by (apply truthy_true; lia).
    fold base. fold k.
    replace ((h0 - base) / k * k + base) with snapped
      by (unfold snapped; lia).
    reflexivity. }
  split; [exact Hw|].
  rewrite Hw. destruct (snapped <? min_height h).
  - replace (snapped + k) with (base + k * ((h0 - base) / k + 1))
      by (unfold snapped; lia).
    apply snap_divisible; lia.
  - unfold snapped. apply snap_divisible; lia.
Qed.

(** The height follows the rule of the width whenever [min_height] is
    present or the snapped height is not negative. *)
Lemma snap_height_as_width current h h0 :
  0 < height_inc h ->
  let k := height_inc h in
  let base := Window.height_base current h in
  let snapped := base + k * ((h0 - base) / k) in
  min_height h <> 0 \/ 0 <= snapped ->
  Window.snap_height current (Some h) h0 =
    if truthy (min_height h) && (snapped <? min_height h)
    then snapped + k else snapped.
Proof.
  intros Hk k base snapped Hm.
  destruct (snap_height_spec current h h0 Hk) as [-> _].
  fold k base snapped.
  destruct (truthy (min_height h)) eqn:Ht; [reflexivity|].
  apply truthy_false in Ht. cbn [andb].
  destruct (Z.ltb_spec snapped (min_height h)); [lia|reflexivity].
Qed.

(** The width of the request under a positive width increment: the
    largest [base + k * j] within the clamped width, one increment more
    when that is below a present [min_width]. *)
Lemma move_resize_width_increment borders current h geometry on_resize :
  0 < width_inc h ->
  let cfg := Window.move_resize borders current (Some h) geometry on_resize in
  let k := width_inc h in
  let base := Window.width_base current h in
  let pre := Window.clamp_width (Some h)
               (Window.requested_size borders geometry).1 in
  let j := (pre - base) / k in
  let snapped := base + k * j in
  snapped <= pre < snapped + k /\
  (forall j', base + k * j' <= pre -> j' <= j) /\
  Window.cfg_width cfg =
    (if truthy (min_width h) && (snapped <? min_width h)
     then snapped + k else snapped) /\
  (Window.cfg_width cfg - base) mod k = 0.
Proof.
  intros Hk cfg k base pre j snapped. subst cfg.
  rewrite move_resize_width. fold pre.
  destruct (snap_largest k base pre Hk) as [Hb Hmax].
  destruct (snap_width_spec current h pre Hk) as [Hw Hm].
  repeat split; try assumption; apply Hb.
Qed.

(** The height follows the same rule when [min_height] is present or
    the snapped height is not negative. *)
Lemma move_resize_height_increment borders current h geometry on_resize :
  0 < height_inc h ->
  let cfg := Window.move_resize borders current (Some h) geometry on_resize in
  let k := height_inc h in
  let base := Window.height_base current h in
  let pre := Window.clamp_height (Some h)
               (Window.requested_size borders geometry).2 in
  let j := (pre - base) / k in
  let snapped := base + k * j in
  min_height h <> 0 \/ 0 <= snapped ->
  snapped <= pre < snapped + k /\
  (forall j', base + k * j' <= pre -> j' <= j) /\
  Window.cfg_height cfg =
    (if truthy (min_height h) && (snapped <? min_height h)
     then snapped + k else snapped) /\
  (Window.cfg_height cfg - base) mod k = 0.
Proof.
  intros Hk cfg k base pre j snapped Hmin. subst cfg.
  rewrite move_resize_height. fold pre.
  destruct (snap_largest k base pre Hk) as [Hb Hmax].
  destruct (snap_height_spec current h pre Hk) as [_ Hm].
  pose proof (snap_height_as_width current h pre Hk Hmin) as Hw.
  repeat split; try assumption; apply Hb.
Qed.

(** Where the height leaves that rule: without [min_height], a negative
    snapped height still gets one more increment. *)
Lemma move_resize_height_without_min borders current h geometry on_resize :
  0 < height_inc h ->
  min_height h = 0 ->
  let cfg := Window.move_resize borders current (Some h) geometry on_resize in
  let k := height_inc h in
  let base := Window.height_base current h in
  let pre := Window.clamp_height (Some h)
               (Window.requested_size borders geometry).2 in
  let snapped := base + k * ((pre - base) / k) in
  snapped < 0 ->
  Window.cfg_height cfg = snapped + k.
Proof.
  intros Hk Hmin cfg k base pre snapped Hneg. subst cfg.
  rewrite move_resize_height. fold pre.
  destruct (snap_height_spec current h pre Hk) as [-> _].
  fold k base snapped. rewrite Hmin.
  destruct (Z.ltb_spec snapped 0); [reflexivity|lia].
Qed.

(** ** Claims on the geometry computations *)

(** C1, at an input where the code leaves the rule: the hints give
    [height_inc = 20] and [base_height = 10] and no [min_height], the
    requested content height is [1].  The largest [j] with
    [10 + 20 * j <= 1] is [-1], so the rule of the increments gives the
    height [-10], and no increment is to be added since there is no
    minimal height.  [move_resize] gives [10]: the extra increment of the
    height is guarded by [height_inc], where the width tests [min_width].
    The same request on the other axis gives the width [-10]. *)
Theorem move_resize_height_inc_without_min :
  let borders := (0, 0, 0, 0) in
  let current := (0, 0, 100, 50) in
  let hints_h := Some (mkHints 0 0 0 0 0 20 0 10 1) in
  let hints_w := Some (mkHints 0 0 0 0 20 0 10 0 1) in
  let origin := Gravity.mk 0 0 in
  let tall := Geometry.init 0 0 100 1 Geometry.DEFAULT_GRAVITY in
  let wide := Geometry.init 0 0 1 100 Geometry.DEFAULT_GRAVITY in
  (10 + 20 * -1 <= 1 < 10 + 20 * -1 + 20) /\
  Window.cfg_height (Window.move_resize borders current hints_h tall origin)
    = 10 /\
  Window.cfg_height (Window.move_resize borders current hints_h tall origin)
    <> 10 + 20 * -1 /\
  Window.cfg_width (Window.move_resize borders current hints_w wide origin)
    = 10 + 20 * -1.
Proof. vm_compute. repeat split; congruence. Qed.

(** C2: the maximal size is applied first and the minimal size after it.
    With both bounds of the width present, the width that enters the
    increment step is [max (min w max_width) min_width] for the requested
    content width [w], which is [min_width] when the bounds are crossed.
    Without a width increment this is the width of the request, and it
    lies between the bounds when [min_width <= max_width].  The same
    holds for the height. *)
Theorem move_resize_clamps borders current h geometry on_resize :
  let cfg := Window.move_resize borders current (Some h) geometry on_resize in
  let req := Window.requested_size borders geometry in
  (min_width h <> 0 -> max_width h <> 0 ->
   let clamped := Z.max (Z.min req.1 (max_width h)) (min_width h) in
   Window.cfg_width cfg = Window.snap_width current (Some h) clamped /\
   (max_width h < min_width h -> clamped = min_width h) /\
   (width_inc h = 0 ->
    Window.cfg_width cfg = clamped /\
    (min_width h <= max_width h ->
     min_width h <= Window.cfg_width cfg <= max_width h))) /\
  (min_height h <> 0 -> max_height h <> 0 ->
   let clamped := Z.max (Z.min req.2 (max_height h)) (min_height h) in
   Window.cfg_height cfg = Window.snap_height current (Some h) clamped /\
   (max_height h < min_height h -> clamped = min_height h) /\
   (height_inc h = 0 ->
    Window.cfg_height cfg = clamped /\
    (min_height h <= max_height h ->
     min_height h <= Window.cfg_height cfg <= max_height h))).
Proof.
  intros cfg req. subst cfg. split.
  - intros Hmin Hmax clamped. rewrite move_resize_width. fold req.
    assert (Hc : Window.clamp_width (Some h) req.1 = clamped).
    { unfold Window.clamp_width, when_hint.
      apply truthy_true in Hmin, Hmax. by rewrite Hmin, Hmax. }
    rewrite Hc. split; [reflexivity|]. split; [lia|].
    intros Hinc. unfold Window.snap_width, when_hint.
    apply truthy_false in Hinc. rewrite Hinc. lia.
  - intros Hmin Hmax clamped. rewrite move_resize_height. fold req.
    assert (Hc : Window.clamp_height (Some h) req.2 = clamped).
    { unfold Window.clamp_height, when_hint.
      apply truthy_true in Hmin, Hmax. by rewrite Hmin, Hmax. }
    rewrite Hc. split; [reflexivity|]. split; [lia|].
    intros Hinc. unfold Window.snap_height, when_hint.
    apply truthy_false in Hinc. rewrite Hinc. lia.
Qed.

Lemma move_resize_clamps_witness :
  let h := mkHints 50 40 300 200 0 0 0 0 1 in
  let cfg := Window.move_resize (2, 2, 20, 2) (0, 0, 100, 100) (Some h)
               (Geometry.init 0 0 1000 10 Geometry.DEFAULT_GRAVITY)
               (Gravity.mk 0 0) in
  (50 <= Window.cfg_width cfg <= 300) /\ (40 <= Window.cfg_height cfg <= 200).
Proof.
  intros h cfg.
  destruct (move_resize_clamps (2, 2, 20, 2) (0, 0, 100, 100) h
              (Geometry.init 0 0 1000 10 Geometry.DEFAULT_GRAVITY)
              (Gravity.mk 0 0)) as [Hw Hh].
  split.
  - apply Hw; [discriminate | discriminate | reflexivity | simpl; lia].
  - apply Hh; [discriminate | discriminate | reflexivity | simpl; lia].
Defined.

(** C3 fails as it is written: for a window of static gravity the left
    and top border are added to the requested position although the size
    is granted as requested. *)
Lemma move_resize_static_gravity_moves :
  let borders := (2, 2, 20, 2) in
  let hints := Some (mkHints 0 0 0 0 0 0 0 0 StaticGravity) in
  let geometry := Geometry.init 100 100 204 172 Geometry.DEFAULT_GRAVITY in
  let cfg := Window.move_resize borders (100, 100, 200, 150) hints geometry
               (Gravity.mk 0 0) in
  (Window.cfg_width cfg, Window.cfg_height cfg)
    = Window.requested_size borders geometry /\
  ~ (Window.cfg_x cfg == Geometry.x geometry)%Q /\
  ~ (Window.cfg_y cfg == Geometry.y geometry)%Q.
Proof.
  vm_compute. repeat split; intros H; discriminate H.
Qed.

(** C3, amended: let the requested position be the position of the
    requested geometry, moved by the left and top border when the hints
    give the static gravity.  If the size of the request is the requested
    content size, the position of the request is that position; otherwise
    it is that position moved by
    [(requested_width - width) * on_resize.x] and
    [(requested_height - height) * on_resize.y]. *)
Theorem move_resize_position (l r t b : Z) current hints geometry on_resize :
  let cfg := Window.move_resize (l, r, t, b) current hints geometry
               on_resize in
  let req := Window.requested_size (l, r, t, b) geometry in
  let static := match hints with
                | Some h => win_gravity h =? StaticGravity
                | None => false
                end in
  let px := if static then (Geometry.x geometry + inject_Z l)%Q
            else Geometry.x geometry in
  let py := if static then (Geometry.y geometry + inject_Z t)%Q
            else Geometry.y geometry in
  (Window.cfg_x cfg, Window.cfg_y cfg) =
  if decide ((Window.cfg_width cfg, Window.cfg_height cfg) = req)
  then (px, py)
  else ((px + inject_Z (req.1 - Window.cfg_width cfg) * Gravity.x on_resize)%Q,
        (py + inject_Z (req.2 - Window.cfg_height cfg) * Gravity.y on_resize)%Q).
Proof.
  intros cfg req static px py. subst cfg.
  rewrite move_resize_stages. fold req.
  set (width := Window.snap_width _ _ _).
  set (height := Window.snap_height _ _ _).
  assert (Hpos : Window.requested_position (l, r, t, b) hints geometry
                 = (px, py)).
  { subst px py static. unfold Window.requested_position, when_hint.
    destruct hints as [h|]; [|reflexivity].
    destruct (win_gravity h =? StaticGravity); reflexivity. }
  rewrite Hpos. cbn [fst snd].
  destruct (Z.eqb_spec width req.1) as [Hw|Hw];
    destruct (Z.eqb_spec height req.2) as [Hh|Hh]; cbn [negb andb fst snd];
    case_decide as Hd; try reflexivity.
  - exfalso. apply Hd. rewrite Hw, Hh. by destruct req.
  - exfalso. apply Hh. by rewrite <- Hd.
  - exfalso. apply Hw. by rewrite <- Hd.
  - exfalso. apply Hw. by rewrite <- Hd.
Qed.

(** C4: the geometry of a window is the raw geometry with the borders
    added to the size, at the raw position, or at the raw position less
    the left and top border under the adjust quirk. *)
Theorem geometry_effective (adjust : bool) (x y w h l r t b : Z) :
  let g := Window.geometry adjust (x, y, w, h) (l, r, t, b) in
  Geometry.width g = w + l + r /\
  Geometry.height g = h + t + b /\
  Geometry.x g = inject_Z (if adjust then x - l else x) /\
  Geometry.y g = inject_Z (if adjust then y - t else y) /\
  Window.geometry false (100, 100, 200, 150) (2, 2, 20, 2)
    = Geometry.mk 100 100 204 172 /\
  Window.geometry false (x, y, w, h) (0, 0, 0, 0)
    = Geometry.mk (inject_Z x) (inject_Z y) w h.
Proof.
  cbn zeta. unfold Window.geometry, Geometry.init, Geometry.DEFAULT_GRAVITY.
  cbn [Geometry.width Geometry.height Geometry.x Geometry.y
       Gravity.x Gravity.y].
  rewrite !Q_anchor_origin.
  split; [reflexivity|]. split; [reflexivity|].
  split; [destruct adjust; reflexivity|].
  split; [destruct adjust; reflexivity|].
  split; [reflexivity|].
  f_equal; lia.
Qed.

(** C10, at the inputs where the code leaves the claim: [invert] binds
    each coordinate only when its axis is flipped, and builds the result
    from both.  Flipping one axis alone raises [UnboundLocalError]; only
    with both axes flipped a gravity is returned, with each coordinate
    [c] replaced by [1 - c]. *)
Theorem invert_single_axis_raises (g : Gravity.t) :
  Gravity.invert g true false = Raise (UnboundLocalError "x") /\
  Gravity.invert g false true = Raise (UnboundLocalError "y") /\
  Gravity.invert g true true
    = Return (Gravity.mk (1 - Gravity.x g) (1 - Gravity.y g)).
Proof. repeat split. Qed.

(** ** The registry *)

Import EventDispatcher.

Lemma elem_of_mask_set (d : gmap Z Handler) (M : Z) :
  M ∈ mask_set d <-> exists ty h, d !! ty = Some h /\ mask h = M.
Proof.
  unfold mask_set. rewrite elem_of_list_to_set, list_elem_of_fmap. split.
  - intros [[ty h] [-> Hin]]. apply elem_of_map_to_list in Hin. eauto.
  - intros (ty & h & Hl & <-). exists (ty, h). split; [reflexivity|].
    by apply elem_of_map_to_list.
Qed.

Lemma mask_set_empty : mask_set ∅ = ∅.
Proof. unfold mask_set. by rewrite map_to_list_empty. Qed.

(** A loop that updates the entry of one window is one update of that
    entry by the loop. *)
Lemma foldl_alter (f : gmap Z Handler -> Z -> gmap Z Handler)
    (hs : gmap Z (gmap Z Handler)) (w : Z) (tys : list Z) :
  foldl (fun hs ty => alter (fun d => f d ty) w hs) hs tys =
  alter (fun d => foldl f d tys) w hs.
Proof.
  revert hs. induction tys as [|ty tys IH]; intros hs; cbn [foldl].
  - symmetry. apply alter_id. by intros.
  - rewrite IH. apply map_eq. intros i.
    destruct (decide (w = i)) as [<-|Hne].
    + rewrite !lookup_alter_eq. by destruct (hs !! w).
    + by rewrite !lookup_alter_ne.
Qed.

Lemma foldl_insert_lookup (h : Handler) (tys : list Z)
    (d : gmap Z Handler) (ty : Z) :
  foldl (fun d ty => <[ty := h]> d) d tys !! ty =
  if decide (ty ∈ tys) then Some h else d !! ty.
Proof.
  revert d. induction tys as [|t tys IH]; intros d; cbn [foldl].
  - case_decide as Hin; [|done]. by apply elem_of_nil in Hin.
  - rewrite IH. destruct (decide (ty ∈ tys)) as [Hin|Hin].
    + rewrite decide_True; [done|]. by apply elem_of_cons; right.
    + destruct (decide (ty = t)) as [->|Hne].
      * rewrite decide_True; [|by apply elem_of_cons; left].
        by rewrite lookup_insert_eq.
      * rewrite decide_False;
          [|rewrite elem_of_cons; intros [?|?]; done].
        by rewrite lookup_insert_ne.
Qed.

Lemma foldl_delete_lookup (tys : list Z) (d : gmap Z Handler) (ty : Z) :
  foldl (fun d ty => delete ty d) d tys !! ty =
  if decide (ty ∈ tys) then None else d !! ty.
Proof.
  revert d. induction tys as [|t tys IH]; intros d; cbn [foldl].
  - case_decide as Hin; [|done]. by apply elem_of_nil in Hin.
  - rewrite IH. destruct (decide (ty ∈ tys)) as [Hin|Hin].
    + rewrite decide_True; [done|]. by apply elem_of_cons; right.
    + destruct (decide (ty = t)) as [->|Hne].
      * rewrite decide_True; [|by apply elem_of_cons; left].
        by rewrite lookup_delete_eq.
      * rewrite decide_False;
          [|rewrite elem_of_cons; intros [?|?]; done].
        by rewrite lookup_delete_ne.
Qed.

Lemma register_loop (self : t) (w : Z) (h : Handler) :
  foldl (fun hs type => alter (fun d => <[type := h]> d) w hs)
        match handlers self !! w with
        | None => <[w := ∅]> (handlers self)
        | Some _ => handlers self
        end (types h)
  = <[w := registered_entry self w h]> (handlers self).
Proof.
  rewrite foldl_alter. unfold registered_entry.
  apply map_eq. intros i. destruct (decide (w = i)) as [<-|Hne].
  - rewrite lookup_alter_eq, lookup_insert_eq.
    destruct (handlers self !! w) as [d|] eqn:Hw; rewrite ?Hw; cbn.
    + done.
    + by rewrite lookup_insert_eq.
  - rewrite lookup_alter_ne, lookup_insert_ne by done.
    destruct (handlers self !! w); [done|]. by rewrite lookup_insert_ne.
Qed.

(** [register] in one equation: the registry gets the new entry of the
    window; the masks of that entry are returned unless the thread has
    stopped, where [start()] raises. *)
Lemma register_unfold (self : t) (w : Z) (h : Handler) :
  register self w h =
  let hs := <[w := registered_entry self w h]> (handlers self) in
  match thread self with
  | Stopped =>
      (mk hs Stopped,
       Raise (RuntimeError "threads can only be started once"))
  | _ => (mk hs Started, Return (mask_set (registered_entry self w h)))
  end.
Proof.
  unfold register. rewrite register_loop, lookup_insert_eq.
  by destruct (thread self).
Qed.

Lemma register_handlers (self : t) (w : Z) (h : Handler) :
  handlers (register self w h).1 =
  <[w := registered_entry self w h]> (handlers self).
Proof. rewrite register_unfold. by destruct (thread self). Qed.

Lemma register_result (self : t) (w : Z) (h : Handler) :
  thread self <> Stopped ->
  (register self w h).2 = Return (mask_set (registered_entry self w h)) /\
  thread (register self w h).1 = Started.
Proof. intros Hth. rewrite register_unfold. by destruct (thread self). Qed.

Lemma register_stopped (self : t) (w : Z) (h : Handler) :
  thread self = Stopped ->
  (register self w h).2
    = Raise (RuntimeError "threads can only be started once") /\
  thread (register self w h).1 = Stopped.
Proof. intros Hth. rewrite register_unfold, Hth. done. Qed.

Lemma handler_of_register (self : t) (w : Z) (h : Handler) (w' ty : Z) :
  handler_of (register self w h).1 w' ty =
  if decide (w' = w ∧ ty ∈ types h) then Some h else handler_of self w' ty.
Proof.
  unfold handler_of. rewrite register_handlers.
  destruct (decide (w' = w)) as [->|Hne].
  - rewrite lookup_insert_eq. cbn. unfold registered_entry.
    rewrite foldl_insert_lookup.
    destruct (decide (ty ∈ types h)) as [Hin|Hin].
    + by rewrite decide_True.
    + rewrite decide_False by (intros [_ ?]; done).
      by destruct (handlers self !! w).
  - rewrite lookup_insert_ne by done.
    by rewrite decide_False by (intros [? _]; done).
Qed.

(** [unregister] in equations. *)
Lemma unregister_unknown_window (self : t) (w : Z) (handler : option Handler) :
  handlers self !! w = None ->
  unregister self w handler = (self, Raise (KeyError w)).
Proof.
  intros Hw. unfold unregister. destruct self as [hs th]. cbn in *.
  destruct handler; rewrite !Hw; reflexivity.
Qed.

Lemma unregister_all (self : t) (w : Z) (d : gmap Z Handler) :
  handlers self !! w = Some d ->
  unregister self w None =
  (mk (delete w (handlers self)) (thread self), Return ∅).
Proof.
  intros Hw. unfold unregister. rewrite Hw, lookup_insert_eq.
  rewrite decide_True by done. by rewrite delete_insert_eq.
Qed.

(** The entry of a window after the types of a handler are removed. *)
Lemma unregister_handler (self : t) (w : Z) (h : Handler)
    (d : gmap Z Handler) :
  handlers self !! w = Some d ->
  let d' := foldl (fun d ty => delete ty d) d (types h) in
  unregister self w (Some h) =
  if decide (d' = ∅)
  then (mk (delete w (handlers self)) (thread self), Return ∅)
  else (mk (<[w := d']> (handlers self)) (thread self), Return (mask_set d')).
Proof.
  intros Hw d'. unfold unregister. rewrite Hw, foldl_alter.
  rewrite lookup_alter_eq, Hw. cbn [fmap option_fmap option_map]. fold d'.
  case_decide.
  - by rewrite delete_alter_eq.
  - do 2 f_equal. apply map_eq. intros i.
    destruct (decide (w = i)) as [<-|Hne].
    + by rewrite lookup_alter_eq, lookup_insert_eq, Hw.
    + by rewrite lookup_alter_ne, lookup_insert_ne.
Qed.

Lemma foldl_delete_absent (tys : list Z) (d : gmap Z Handler) :
  (forall ty, ty ∈ tys -> d !! ty = None) ->
  foldl (fun d ty => delete ty d) d tys = d.
Proof.
  intros Habs. apply map_eq. intros ty. rewrite foldl_delete_lookup.
  case_decide; [|done]. symmetry. by apply Habs.
Qed.

(** ** Handlers of one window and type *)

Lemma filter_key_absent {A} (l : list (Z * A)) (k : Z) :
  k ∉ l.*1 -> filter (fun kv => kv.1 = k) l = [].
Proof.
  induction l as [|[k' v'] l IH]; [done|]. cbn [fmap list_fmap fst].
  rewrite not_elem_of_cons. intros [Hne Hnin].
  rewrite filter_cons_False by (intros Heq; apply Hne; symmetry; exact Heq).
  by apply IH.
Qed.

Lemma filter_key_present {A} (l : list (Z * A)) (k : Z) (v : A) :
  NoDup l.*1 -> (k, v) ∈ l -> filter (fun kv => kv.1 = k) l = [(k, v)].
Proof.
  induction l as [|[k' v'] l IH]; intros Hnd Hin.
  - by apply elem_of_nil in Hin.
  - cbn [fmap list_fmap fst] in Hnd. apply NoDup_cons in Hnd as [Hk' Hnd].
    apply elem_of_cons in Hin as [Heq|Hin].
    + injection Heq as <- <-. rewrite filter_cons_True by done.
      by rewrite filter_key_absent.
    + assert (k' <> k).
      { intros ->. apply Hk'. apply list_elem_of_fmap. by exists (k, v). }
      rewrite filter_cons_False by done. by apply IH.
Qed.

Lemma handlers_for_handler_of (self : t) (w ty : Z) :
  handlers_for self w ty =
  match handler_of self w ty with Some h => [h] | None => [] end.
Proof.
  unfold handlers_for, handler_of.
  destruct (handlers self !! w) as [d|]; [|done]. cbn.
  destruct (d !! ty) as [h|] eqn:Hd.
  - rewrite (filter_key_present _ ty h); [done| |].
    + apply NoDup_fst_map_to_list.
    + by apply elem_of_map_to_list.
  - rewrite filter_key_absent; [done|].
    rewrite list_elem_of_fmap. intros [[k v] [-> Hin]].
    apply elem_of_map_to_list in Hin. cbn in *. congruence.
Qed.

Lemma dispatch_handler_of (self : t) (e : XEvent) (h : Handler) :
  handler_of self (ev_window e) (ev_type e) = Some h ->
  dispatch self e = HandleEvent h e.
Proof.
  unfold handler_of, dispatch.
  destruct (handlers self !! ev_window e) as [d|]; cbn; [|done].
  by intros ->.
Qed.

Lemma unregister_thread (self : t) (w : Z) (handler : option Handler) :
  thread (unregister self w handler).1 = thread self.
Proof.
  unfold unregister.
  repeat (case_match; cbn [fst thread]); reflexivity.
Qed.

(** Once the loop of [run] has been left, the thread stays stopped:
    every later [register] raises and no event is dispatched any more. *)
Lemma exec_stopped (self : t) (acts : list action) :
  thread self = Stopped ->
  thread (exec self acts).1 = Stopped /\
  (forall ds, Dispatched ds ∉ (exec self acts).2) /\
  (forall r, Called (Return r) ∈ (exec self acts).2 ->
             exists w oh, CallUnregister w oh ∈ acts).
Proof.
  revert self. induction acts as [|a acts IH]; intros self Hth; cbn [exec].
  - repeat split; [done|intros ds H; by apply elem_of_nil in H|].
    intros r H. by apply elem_of_nil in H.
  - destruct (step self a) as [s o] eqn:Hstep.
    assert (Hs : thread s = Stopped /\ (forall ds, o <> Dispatched ds) /\
                 (forall r, o = Called (Return r) ->
                            exists w oh, a = CallUnregister w oh)).
    { destruct a as [w h|w oh|pending]; cbn [step] in Hstep.
      - destruct (register self w h) as [s' r] eqn:Hr.
        injection Hstep as <- <-.
        destruct (register_stopped self w h Hth) as [H2 H1].
        rewrite Hr in H1, H2. cbn in H1, H2. subst r.
        repeat split; [done|done|]. intros r [=].
      - destruct (unregister self w oh) as [s' r] eqn:Hr.
        injection Hstep as <- <-.
        pose proof (unregister_thread self w oh) as H1.
        rewrite Hr in H1. cbn in H1.
        repeat split; [congruence|done|]. eauto.
      - rewrite Hth in Hstep. cbn in Hstep. injection Hstep as <- <-.
        repeat split; [done|done|]. intros r [=]. }
    destruct Hs as (Hs & Ho & Hc).
    destruct (IH s Hs) as (IH1 & IH2 & IH3).
    destruct (exec s acts) as [s' os]. cbn [fst snd] in *.
    split; [done|]. split.
    + intros ds [Heq|Hin]%elem_of_cons; [by eapply Ho|by eapply IH2].
    + intros r [Heq|Hin]%elem_of_cons.
      * destruct (Hc r (eq_sym Heq)) as (w & oh & ->).
        exists w, oh. by apply elem_of_cons; left.
      * destruct (IH3 r Hin) as (w & oh & Hin').
        exists w, oh. by apply elem_of_cons; right.
Qed.

(** ** Claims on the event dispatcher *)

(** C5: whatever was registered and unregistered before, the registry
    holds at most one handler for a window and an event type.  When a
    handler [h1] and then a handler [h2] are registered for a window [w],
    and both handle the type [ty], the registry holds [h2] alone for [w]
    and [ty]: an event of type [ty] for [w] is handed to [h2], not to
    [h1], by [__dispatch] and hence by the next turn of the loop. *)
Theorem register_replaces_handler (acts : list action) (w ty : Z)
    (h1 h2 : Handler) :
  ty ∈ types h1 -> ty ∈ types h2 ->
  let d := (exec init acts).1 in
  let d2 := (register (register d w h1).1 w h2).1 in
  let e := mkEvent w ty in
  (forall w' ty', (length (handlers_for d w' ty') <= 1)%nat) /\
  (forall w' ty', (length (handlers_for d2 w' ty') <= 1)%nat) /\
  handlers_for d2 w ty = [h2] /\
  dispatch d2 e = HandleEvent h2 e /\
  (h1 <> h2 -> dispatch d2 e <> HandleEvent h1 e) /\
  (thread d <> Stopped ->
   (step d2 (Wake [e])).2 = Dispatched [HandleEvent h2 e]).
Proof.
  intros Hty1 Hty2 d d2 e.
  assert (Hone : forall s w' ty', (length (handlers_for s w' ty') <= 1)%nat).
  { intros s w' ty'. rewrite handlers_for_handler_of.
    destruct (handler_of s w' ty'); cbn; lia. }
  assert (Hof : handler_of d2 w ty = Some h2).
  { subst d2. rewrite handler_of_register. by rewrite decide_True. }
  assert (Hd : dispatch d2 e = HandleEvent h2 e).
  { by apply dispatch_handler_of. }
  split; [apply Hone|]. split; [apply Hone|].
  split; [by rewrite handlers_for_handler_of, Hof|].
  split; [exact Hd|].
  split; [rewrite Hd; congruence|].
  intros Hth. cbn [step].
  assert (Halive : thread d2 = Started).
  { subst d2. apply register_result.
    destruct (register_result d w h1 Hth) as [_ ->]. done. }
  assert (Hne : handlers d2 <> ∅).
  { subst d2. rewrite register_handlers. apply insert_non_empty. }
  rewrite Halive. cbn [isAlive]. unfold run_turn.
  rewrite decide_False by done. cbn. by rewrite Hd.
Qed.

Lemma register_replaces_handler_witness :
  let h1 := mkHandler 1 4 [2; 3] in
  let h2 := mkHandler 2 8 [3] in
  let d2 := (register (register init 7 h1).1 7 h2).1 in
  dispatch d2 (mkEvent 7 3) = HandleEvent h2 (mkEvent 7 3).
Proof.
  intros h1 h2 d2.
  assert (H1 : 3 ∈ types h1) by (cbn; repeat constructor).
  assert (H2 : 3 ∈ types h2) by (cbn; repeat constructor).
  exact (proj1 (proj2 (proj2 (proj2
           (register_replaces_handler [] 7 3 h1 h2 H1 H2))))).
Defined.

Lemma mask_set_insert (d : gmap Z Handler) (ty : Z) (h : Handler) :
  d !! ty = None -> mask_set (<[ty := h]> d) = {[mask h]} ∪ mask_set d.
Proof.
  intros Hd. apply set_eq. intros M.
  rewrite elem_of_union, elem_of_singleton, !elem_of_mask_set. split.
  - intros (ty' & h' & Hl & <-). destruct (decide (ty = ty')) as [<-|Hne].
    + rewrite lookup_insert_eq in Hl. injection Hl as <-. by left.
    + rewrite lookup_insert_ne in Hl by done. right. eauto.
  - intros [->|(ty' & h' & Hl & <-)].
    + exists ty, h. by rewrite lookup_insert_eq.
    + exists ty', h'. split; [|done].
      rewrite lookup_insert_ne; [done|]. intros <-. congruence.
Qed.

Lemma handler_of_entry (hs : gmap Z (gmap Z Handler)) (th : thread_state)
    (w ty : Z) (d : gmap Z Handler) :
  hs !! w = Some d -> handler_of (mk hs th) w ty = d !! ty.
Proof. intros Hw. unfold handler_of. cbn. by rewrite Hw. Qed.

(** The masks returned where the calls return: [register] returns the
    set of the masks of the handlers that the registry holds for the
    window after the insertion, on a dispatcher whose thread has not
    stopped; [unregister] returns the
    set computed in the same way when the window keeps handlers.  With a
    handler of mask [M1] for the type [A] registered first and a handler
    of mask [M2] for another type [B] registered second, the second
    [register] returns [{M1, M2}], and the [unregister] of the first
    handler after it returns [{M2}]. *)
Theorem register_unregister_masks (d : t) (w : Z) (h : Handler)
    (oh : option Handler) (M1 M2 A B : Z) (i1 i2 : N) :
  (thread d <> Stopped ->
   exists ms, (register d w h).2 = Return ms /\
     forall M, M ∈ ms <->
       exists ty h', handler_of (register d w h).1 w ty = Some h' /\
                     mask h' = M) /\
  (is_Some (handlers (unregister d w oh).1 !! w) ->
   exists ms, (unregister d w oh).2 = Return ms /\
     forall M, M ∈ ms <->
       exists ty h', handler_of (unregister d w oh).1 w ty = Some h' /\
                     mask h' = M) /\
  (A <> B ->
   let h1 := mkHandler i1 M1 [A] in
   let h2 := mkHandler i2 M2 [B] in
   let d1 := (register init w h1).1 in
   let d2 := (register d1 w h2).1 in
   (register d1 w h2).2 = Return {[M1; M2]} /\
   (unregister d2 w (Some h1)).2 = Return {[M2]}).
Proof.
  split; [|split].
  - intros Hth. exists (mask_set (registered_entry d w h)).
    split; [by apply register_result|].
    intros M. rewrite elem_of_mask_set.
    rewrite register_unfold. cbv zeta.
    assert (Hof : forall th ty,
      handler_of (mk (<[w := registered_entry d w h]> (handlers d)) th) w ty
      = registered_entry d w h !! ty).
    { intros th ty. apply handler_of_entry, lookup_insert_eq. }
    destruct (thread d); cbn [fst]; try congruence;
      by setoid_rewrite Hof.
  - destruct (handlers d !! w) as [d0|] eqn:Hw.
    + destruct oh as [h0|].
      * rewrite (unregister_handler d w h0 d0 Hw). cbv zeta.
        case_decide as Hd; cbn [fst snd handlers].
        -- rewrite lookup_delete_eq. by intros [? ?].
        -- intros _. eexists. split; [reflexivity|].
           intros M. rewrite elem_of_mask_set.
           by setoid_rewrite (handler_of_entry _ _ w _ _
                                (lookup_insert_eq _ _ _)).
      * rewrite (unregister_all d w d0 Hw). cbn [fst snd handlers].
        rewrite lookup_delete_eq. by intros [? ?].
    + rewrite (unregister_unknown_window d w oh Hw). cbn [fst].
      rewrite Hw. by intros [? ?].
  - intros HAB h1 h2 d1 d2.
    assert (Hd1 : handlers d1 = {[w := {[A := h1]}]}).
    { subst d1. rewrite register_handlers. unfold registered_entry. cbn.
      by rewrite lookup_empty. }
    assert (He : registered_entry d1 w h2 = <[B := h2]> {[A := h1]}).
    { unfold registered_entry. rewrite Hd1, lookup_singleton_eq. done. }
    assert (Hth : thread d1 = Started).
    { subst d1. by apply register_result. }
    split.
    + destruct (register_result d1 w h2) as [-> _]; [congruence|].
      rewrite He. f_equal.
      rewrite mask_set_insert by (by rewrite lookup_singleton_ne).
      rewrite <- insert_empty, mask_set_insert by apply lookup_empty.
      rewrite mask_set_empty. cbn [mask].
      rewrite (right_id_L ∅ (∪)). apply (comm_L (∪)).
    + assert (Hd2 : handlers d2 !! w = Some (<[B := h2]> {[A := h1]})).
      { subst d2. rewrite register_handlers, He. apply lookup_insert_eq. }
      rewrite (unregister_handler d2 w h1 _ Hd2). cbv zeta.
      change (types h1) with [A]. cbn [foldl].
      assert (Hdel : delete A (<[B := h2]> {[A := h1]})
                     =@{gmap Z Handler} {[B := h2]}).
      { rewrite delete_insert_ne by done.
        by rewrite delete_singleton_eq, insert_empty. }
      rewrite Hdel. rewrite decide_False by apply map_non_empty_singleton.
      cbn [snd]. f_equal.
      rewrite <- insert_empty, mask_set_insert by apply lookup_empty.
      rewrite mask_set_empty. cbn [mask]. apply (right_id_L ∅ (∪)).
Qed.

Lemma register_unregister_masks_witness :
  let h1 := mkHandler 1 4 [2] in
  let h2 := mkHandler 2 8 [3] in
  (exists ms, (register init 7 h1).2 = Return ms) /\
  (register (register init 7 h1).1 7 h2).2 = Return {[4; 8]} /\
  (unregister (register (register init 7 h1).1 7 h2).1 7 (Some h1)).2
    = Return {[8]}.
Proof.
  intros h1 h2.
  destruct (register_unregister_masks init 7 h1 None 4 8 2 3 1 2)
    as (Hreg & _ & Hex).
  split.
  - destruct Hreg as (ms & Hms & _); [discriminate|]. by exists ms.
  - apply Hex. lia.
Defined.

(** C6, at a state where the code leaves the claim: a handler is
    registered, all handlers are unregistered and the loop of [run] ends
    on the empty registry.  In this state [register] stores the handler,
    so that the set of the masks of the handlers of the window is [{4}],
    the set the claim lets it return; but the call returns no set: it
    raises the [RuntimeError] of [start()] on the thread that has run. *)
Theorem register_raises_instead_of_masks :
  let h := mkHandler 1 4 [2] in
  let d := (exec init [CallRegister 7 h; CallUnregister 7 None; Wake []]).1 in
  handlers d = ∅ /\ thread d = Stopped /\
  handler_of (register d 7 h).1 7 2 = Some h /\
  mask_set <$> (handlers (register d 7 h).1 !! 7) = Some {[4]} /\
  (register d 7 h).2
    = Raise (RuntimeError "threads can only be started once") /\
  (forall ms, (register d 7 h).2 <> Return ms).
Proof.
  intros h d.
  assert (Hd : d = mk ∅ Stopped) by (vm_compute; reflexivity).
  rewrite Hd. split; [done|]. split; [done|].
  rewrite register_unfold. cbv zeta. cbn [thread handlers fst snd].
  assert (He : registered_entry (mk ∅ Stopped) 7 h = {[2 := h]}).
  { unfold registered_entry. cbn. by rewrite lookup_empty. }
  rewrite He. split.
  { unfold handler_of. cbn [handlers]. rewrite lookup_insert_eq.
    apply lookup_singleton_eq. }
  split; [|split; [done|intros ms; discriminate]].
  rewrite lookup_insert_eq. reflexivity.
Qed.

(** C7: for a window with a registered handler, [unregister] with no
    handler returns the empty set of masks and drops the entry of the
    window, so that no handler is left for it; an event for that window is
    then reported and dropped by [__dispatch], handed to no handler.  An
    event for a known window whose type has no handler is skipped. *)
Theorem unregister_all_drops_window (d : t) (w ty0 : Z) (h0 : Handler) :
  handler_of d w ty0 = Some h0 ->
  let d' := (unregister d w None).1 in
  (unregister d w None).2 = Return ∅ /\
  handlers d' = delete w (handlers d) /\
  handlers d' !! w = None /\
  (forall ty, handlers_for d' w ty = []) /\
  (forall ty, dispatch d' (mkEvent w ty) = LoggedNoHandler w) /\
  (forall ty, (run_turn d' [mkEvent w ty]).2 = [LoggedNoHandler w] \/
              (run_turn d' [mkEvent w ty]).2 = []) /\
  (forall (s : t) (e : XEvent),
     is_Some (handlers s !! ev_window e) ->
     handler_of s (ev_window e) (ev_type e) = None ->
     dispatch s e = Skipped).
Proof.
  intros Hof d'.
  assert (Hw : exists d0, handlers d !! w = Some d0).
  { unfold handler_of in Hof. destruct (handlers d !! w) as [d0|]; [|done].
    by exists d0. }
  destruct Hw as [d0 Hw]. subst d'.
  rewrite (unregister_all d w d0 Hw). cbn [fst snd handlers].
  assert (Hdisp : forall ty,
    dispatch (mk (delete w (handlers d)) (thread d)) (mkEvent w ty)
    = LoggedNoHandler w).
  { intros ty. unfold dispatch. cbn. by rewrite lookup_delete_eq. }
  split; [done|]. split; [done|]. split; [apply lookup_delete_eq|].
  split.
  { intros ty. unfold handlers_for. cbn. by rewrite lookup_delete_eq. }
  split; [exact Hdisp|]. split.
  { intros ty. unfold run_turn. case_decide; cbn [snd fmap list_fmap].
    - by right.
    - left. by rewrite Hdisp. }
  intros s e [d1 Hs] Hnone. unfold handler_of in Hnone. unfold dispatch.
  rewrite Hs in *. cbn in Hnone. by rewrite Hnone.
Qed.

Lemma unregister_all_drops_window_witness :
  let h := mkHandler 1 4 [2] in
  let d := (register init 7 h).1 in
  (unregister d 7 None).2 = Return ∅ /\
  dispatch (unregister d 7 None).1 (mkEvent 7 2) = LoggedNoHandler 7.
Proof.
  intros h d.
  assert (Hof : handler_of d 7 2 = Some h) by (vm_compute; reflexivity).
  destruct (unregister_all_drops_window d 7 2 h Hof)
    as (Hr & _ & _ & _ & Hd & _).
  split; [exact Hr | exact (Hd 2)].
Defined.

(** C8 fails as it is written: the registry is keyed by event type, and
    [unregister] removes the entries of the types the handler declares,
    whoever registered them.  A handler that was never registered takes
    the handler of another one away when it declares the same type. *)
Lemma unregister_foreign_handler_changes_registry :
  let h1 := mkHandler 1 4 [2] in
  let h2 := mkHandler 2 8 [2] in
  let d1 := (register init 7 h1).1 in
  h2 <> h1 /\
  handler_of d1 7 2 = Some h1 /\
  handler_of (unregister d1 7 (Some h2)).1 7 2 = None /\
  (unregister d1 7 (Some h2)).1 <> d1.
Proof.
  intros h1 h2 d1.
  assert (H1 : handler_of d1 7 2 = Some h1) by (vm_compute; reflexivity).
  assert (H2 : handler_of (unregister d1 7 (Some h2)).1 7 2 = None)
    by (vm_compute; reflexivity).
  split; [discriminate|]. split; [exact H1|]. split; [exact H2|].
  intros Heq. rewrite Heq in H2. congruence.
Qed.

(** C8, amended: for a window that has handlers, [unregister] with a
    handler none of whose declared types has a handler for that window
    raises no error, leaves the dispatcher as it was and returns the set
    of the masks of the handlers of the window. *)
Theorem unregister_unrelated_handler_noop (d : t) (w : Z) (h : Handler)
    (dw : gmap Z Handler) :
  handlers d !! w = Some dw ->
  dw <> ∅ ->
  (forall ty, ty ∈ types h -> dw !! ty = None) ->
  unregister d w (Some h) = (d, Return (mask_set dw)).
Proof.
  intros Hw Hne Habs.
  rewrite (unregister_handler d w h dw Hw). cbv zeta.
  rewrite (foldl_delete_absent _ _ Habs).
  rewrite decide_False by done.
  rewrite insert_id by done. by destruct d.
Qed.

Lemma unregister_unrelated_handler_noop_witness :
  let h1 := mkHandler 1 4 [2] in
  let h3 := mkHandler 3 16 [5] in
  let d1 := (register init 7 h1).1 in
  unregister d1 7 (Some h3) = (d1, Return (mask_set {[2 := h1]})).
Proof.
  intros h1 h3 d1.
  apply (unregister_unrelated_handler_noop d1 7 h3 {[2 := h1]}).
  - vm_compute. reflexivity.
  - apply map_non_empty_singleton.
  - intros ty Hty. cbn in Hty. apply list_elem_of_singleton in Hty.
    subst ty. vm_compute. reflexivity.
Defined.

(** C9, at an input where the code leaves the claim: a handler is
    registered (the thread starts), all handlers are unregistered, and the
    loop of [run] finds the registry empty and ends.  The next [register]
    stores its handler and calls [start()] on the thread that has already
    run: the call raises [RuntimeError], the loop does not run again and
    the event that follows for the new handler is not dispatched. *)
Theorem register_after_stop_raises :
  let h := mkHandler 1 4 [2] in
  let acts := [CallRegister 7 h; CallUnregister 7 None; Wake [];
               CallRegister 7 h; Wake [mkEvent 7 2]] in
  (exec init acts).2 =
    [Called (Return {[4]}); Called (Return ∅); Dispatched [];
     Called (Raise (RuntimeError "threads can only be started once"));
     NotRunning] /\
  thread (exec init acts).1 = Stopped /\
  handler_of (exec init acts).1 7 2 = Some h.
Proof. vm_compute. repeat split. Qed.

(** * Further properties of the code *)

(** ** Gravity and geometry values *)

Lemma Qlt_bool_iff (a b : Q) : Gravity.Qlt_bool a b = true <-> (a < b)%Q.
Proof.
  unfold Gravity.Qlt_bool. rewrite negb_true_iff.
  destruct (Qle_bool b a) eqn:Hle.
  - apply Qle_bool_iff in Hle. split; [discriminate|]. intros Hlt.
    exfalso. eapply Qlt_not_le; eassumption.
  - split; [intros _|reflexivity].
    apply Qnot_le_lt. intros Hle'. apply Qle_bool_iff in Hle'. congruence.
Qed.

Lemma Qlt_bool_false (a b : Q) : Gravity.Qlt_bool a b = false <-> (b <= a)%Q.
Proof.
  unfold Gravity.Qlt_bool. rewrite negb_false_iff. apply Qle_bool_iff.
Qed.

Lemma is_middle_iff (g : Gravity.t) :
  Gravity.is_middle g = true <->
  (Gravity.x g == 1 # 2)%Q /\ (Gravity.y g == 1 # 2)%Q.
Proof.
  unfold Gravity.is_middle. rewrite andb_true_iff, !Qeq_bool_iff. reflexivity.
Qed.

Lemma side_cases (c : Q) :
  Gravity.Qlt_bool c (1 # 2) && Gravity.Qlt_bool (1 # 2) c = false /\
  (Gravity.Qlt_bool c (1 # 2) = false /\ Gravity.Qlt_bool (1 # 2) c = false
   <-> (c == 1 # 2)%Q).
Proof.
  destruct (Gravity.Qlt_bool c (1 # 2)) eqn:Hlo;
    destruct (Gravity.Qlt_bool (1 # 2) c) eqn:Hhi; cbn [andb].
  - apply Qlt_bool_iff in Hlo, Hhi. exfalso. lra.
  - apply Qlt_bool_iff in Hlo. split; [reflexivity|].
    split; [intros [? _]; discriminate|intros ?; exfalso; lra].
  - apply Qlt_bool_iff in Hhi. split; [reflexivity|].
    split; [intros [_ ?]; discriminate|intros ?; exfalso; lra].
  - apply Qlt_bool_false in Hlo, Hhi. split; [reflexivity|].
    split; [intros _; lra|intros _; split; reflexivity].
Qed.

(** X3: a gravity is toward the top and toward the bottom at once only
    in the middle point, and a gravity on the horizontal centre line
    that is not the middle point ([y] is one half, [x] is not) is
    neither toward the top nor toward the bottom.  The same holds for
    left and right with the axes exchanged. *)
Theorem gravity_sides (g : Gravity.t) :
  Gravity.is_top g && Gravity.is_bottom g = Gravity.is_middle g /\
  Gravity.is_left g && Gravity.is_right g = Gravity.is_middle g /\
  (Gravity.is_top g = false /\ Gravity.is_bottom g = false <->
   (Gravity.y g == 1 # 2)%Q /\ ~ (Gravity.x g == 1 # 2)%Q) /\
  (Gravity.is_left g = false /\ Gravity.is_right g = false <->
   (Gravity.x g == 1 # 2)%Q /\ ~ (Gravity.y g == 1 # 2)%Q).
Proof.
  unfold Gravity.is_top, Gravity.is_bottom, Gravity.is_left, Gravity.is_right.
  destruct (Gravity.is_middle g) eqn:Hm.
  - apply is_middle_iff in Hm as [Hx Hy]. rewrite !orb_true_r.
    split; [reflexivity|]. split; [reflexivity|]. split; split.
    + intros [H _]. discriminate H.
    + intros [_ H]. exfalso. apply H, Hx.
    + intros [H _]. discriminate H.
    + intros [_ H]. exfalso. apply H, Hy.
  - assert (Hnm : ~ ((Gravity.x g == 1 # 2)%Q /\ (Gravity.y g == 1 # 2)%Q)).
    { intros H. apply is_middle_iff in H. congruence. }
    rewrite !orb_false_r.
    destruct (side_cases (Gravity.y g)) as [Hy1 Hy2].
    destruct (side_cases (Gravity.x g)) as [Hx1 Hx2].
    split; [exact Hy1|]. split; [exact Hx1|]. split; split.
    + intros H. apply Hy2 in H. split; [exact H|]. intros Hx. by apply Hnm.
    + intros [H _]. by apply Hy2.
    + intros H. apply Hx2 in H. split; [exact H|]. intros Hy. by apply Hnm.
    + intros [H _]. by apply Hx2.
Qed.

(** ** More on [Window.move_resize] *)

Lemma move_resize_free (l r t b : Z) current hints geometry on_resize :
  free_hints hints ->
  Window.move_resize (l, r, t, b) current hints geometry on_resize =
  Window.mkConfigure (Geometry.x geometry) (Geometry.y geometry)
    (Geometry.width geometry - (l + r)) (Geometry.height geometry - (t + b)).
Proof.
  intros Hfree. rewrite move_resize_stages.
  unfold Window.requested_size, Window.requested_position,
    Window.snap_width, Window.snap_height, Window.clamp_width,
    Window.clamp_height, when_hint.
  destruct hints as [h|]; cbn [fst snd].
  - destruct Hfree as (-> & -> & -> & -> & -> & -> & Hg).
    apply Z.eqb_neq in Hg. rewrite Hg. cbn [truthy Z.eqb negb].
    by rewrite !Z.eqb_refl.
  - by rewrite !Z.eqb_refl.
Qed.

(** X5: without hints, or with hints that give no size field and not
    the static gravity, the request is the requested position and the
    requested size less the borders, whatever the current geometry and
    the gravity of the resize. *)
Theorem move_resize_unconstrained (l r t b : Z) current hints geometry
    on_resize :
  free_hints hints ->
  Window.move_resize (l, r, t, b) current hints geometry on_resize =
  Window.mkConfigure (Geometry.x geometry) (Geometry.y geometry)
    (Geometry.width geometry - (l + r)) (Geometry.height geometry - (t + b)).
Proof.
  intros Hfree. rewrite move_resize_stages.
  unfold Window.requested_size, Window.requested_position,
    Window.snap_width, Window.snap_height, Window.clamp_width,
    Window.clamp_height, when_hint.
  destruct hints as [h|]; cbn [fst snd]; [|by rewrite !Z.eqb_refl].
  destruct Hfree as (Hmw & Hmh & Hxw & Hxh & Hiw & Hih & Hg).
  rewrite Hmw, Hmh, Hxw, Hxh, Hiw, Hih.
  apply Z.eqb_neq in Hg. rewrite Hg. cbn [truthy Z.eqb negb].
  by rewrite !Z.eqb_refl.
Qed.

Lemma move_resize_unconstrained_witness :
  Window.move_resize (2, 2, 20, 2) (0, 0, 50, 50)
    (Some (mkHints 0 0 0 0 0 0 0 0 1))
    (Geometry.init 10 30 204 172 Geometry.DEFAULT_GRAVITY) (Gravity.mk 1 1)
  = Window.mkConfigure
      (Geometry.x (Geometry.init 10 30 204 172 Geometry.DEFAULT_GRAVITY))
      (Geometry.y (Geometry.init 10 30 204 172 Geometry.DEFAULT_GRAVITY))
      (204 - (2 + 2)) (172 - (20 + 2)).
Proof.
  apply (move_resize_unconstrained 2 2 20 2 (0, 0, 50, 50)
           (Some (mkHints 0 0 0 0 0 0 0 0 1))).
  cbn. repeat split; discriminate.
Defined.

(** X6: the geometry of a window, handed back to [move_resize] with the
    same borders and unconstraining hints, requests the raw size of the
    window; the position requested is the raw position, less the left
    and top border under the adjust quirk. *)
Theorem move_resize_own_geometry (adjust : bool) (x y w h l r t b : Z)
    current hints on_resize :
  free_hints hints ->
  Window.move_resize (l, r, t, b) current hints
    (Window.geometry adjust (x, y, w, h) (l, r, t, b)) on_resize =
  Window.mkConfigure (inject_Z (if adjust then x - l else x))
                     (inject_Z (if adjust then y - t else y)) w h.
Proof.
  intros Hfree. rewrite move_resize_free by done.
  unfold Window.geometry, Geometry.init, Geometry.DEFAULT_GRAVITY.
  cbn [Geometry.x Geometry.y Geometry.width Geometry.height
       Gravity.x Gravity.y].
  rewrite !Q_anchor_origin. f_equal; lia.
Qed.

Lemma move_resize_own_geometry_witness :
  Window.move_resize (2, 2, 20, 2) (100, 100, 200, 150) None
    (Window.geometry false (100, 100, 200, 150) (2, 2, 20, 2))
    (Gravity.mk 0 0)
  = Window.mkConfigure 100 100 200 150.
Proof.
  exact (move_resize_own_geometry false 100 100 200 150 2 2 20 2
           (100, 100, 200, 150) None (Gravity.mk 0 0) I).
Defined.

(** X7: under a positive increment the size of the request is less than
    one increment away from the clamped size (for the height: at most
    one increment above it), and a minimal size that is present is
    kept: the increment step never gives a size below it. *)
Theorem move_resize_increment_bounds borders current h geometry on_resize :
  let cfg := Window.move_resize borders current (Some h) geometry on_resize in
  let req := Window.requested_size borders geometry in
  (0 < width_inc h ->
   let pre := Window.clamp_width (Some h) req.1 in
   pre - width_inc h < Window.cfg_width cfg < pre + width_inc h /\
   (min_width h <> 0 -> min_width h <= Window.cfg_width cfg)) /\
  (0 < height_inc h ->
   let pre := Window.clamp_height (Some h) req.2 in
   pre - height_inc h < Window.cfg_height cfg <= pre + height_inc h /\
   (min_height h <> 0 -> min_height h <= Window.cfg_height cfg)).
Proof.
  intros cfg req. subst cfg. split.
  - intros Hk pre. rewrite move_resize_width. fold req. fold pre.
    destruct (snap_largest (width_inc h) (Window.width_base current h)
                pre Hk) as [Hb _].
    destruct (snap_width_spec current h pre Hk) as [-> _].
    assert (Hpre : min_width h <> 0 -> min_width h <= pre).
    { intros Hmin. subst pre. unfold Window.clamp_width, when_hint.
      apply truthy_true in Hmin. rewrite Hmin. lia. }
    destruct (truthy (min_width h)) eqn:Hm; cbn [andb].
    + apply truthy_true in Hm.
      destruct (Z.ltb_spec
                  (Window.width_base current h + width_inc h *
                     ((pre - Window.width_base current h) / width_inc h))
                  (min_width h)); lia.
    + apply truthy_false in Hm. lia.
  - intros Hk pre. rewrite move_resize_height. fold req. fold pre.
    destruct (snap_largest (height_inc h) (Window.height_base current h)
                pre Hk) as [Hb _].
    destruct (snap_height_spec current h pre Hk) as [-> _].
    assert (Hpre : min_height h <> 0 -> min_height h <= pre).
    { intros Hmin. subst pre. unfold Window.clamp_height, when_hint.
      apply truthy_true in Hmin. rewrite Hmin. lia. }
    destruct (Z.ltb_spec
                (Window.height_base current h + height_inc h *
                   ((pre - Window.height_base current h) / height_inc h))
                (min_height h)); lia.
Qed.

Lemma move_resize_increment_bounds_witness :
  let h := mkHints 100 100 100 100 30 30 0 0 1 in
  let cfg := Window.move_resize (0, 0, 0, 0) (0, 0, 0, 0) (Some h)
               (Geometry.init 0 0 500 500 Geometry.DEFAULT_GRAVITY)
               (Gravity.mk 0 0) in
  100 <= Window.cfg_width cfg /\ 100 <= Window.cfg_height cfg.
Proof.
  intros h cfg.
  destruct (move_resize_increment_bounds (0, 0, 0, 0) (0, 0, 0, 0) h
              (Geometry.init 0 0 500 500 Geometry.DEFAULT_GRAVITY)
              (Gravity.mk 0 0)) as [Hw Hh].
  split.
  - apply Hw; [reflexivity | discriminate].
  - apply Hh; [reflexivity | discriminate].
Defined.

Lemma snap_unique (k base x j : Z) :
  0 < k -> base + k * j <= x < base + k * j + k ->
  (x - base) / k * k + base = base + k * j.
Proof.
  intros Hk Hx.
  assert ((x - base) / k = j) as ->; [|lia].
  symmetry. apply (Z.div_unique_pos _ _ _ (x - base - k * j)); lia.
Qed.

(** Clamping and snapping once more gives the same size. *)
Lemma clamp_snap_stable (k base mn mx : Z) (bm bx : bool) (w : Z) :
  0 < k ->
  let clampf := fun x : Z =>
    let x := if bx then Z.min x mx else x in
    if bm then Z.max x mn else x in
  let snapf := fun x : Z =>
    let s := (x - base) / k * k + base in
    if bm && (s <? mn) then s + k else s in
  snapf (clampf (snapf (clampf w))) = snapf (clampf w).
Proof.
  intros Hk clampf snapf.
  assert (Hsnap : forall x j, base + k * j <= x < base + k * j + k ->
            snapf x = if bm && (base + k * j <? mn)
                      then base + k * j + k else base + k * j).
  { intros x j Hx. subst snapf. cbv beta zeta.
    by rewrite (snap_unique k base x j Hk Hx). }
  set (pre := clampf w).
  destruct (snap_largest k base pre Hk) as [Hb _].
  set (q := (pre - base) / k) in Hb.
  assert (Hmn : bm = true -> mn <= pre).
  { intros ->. subst pre clampf. cbv beta zeta. lia. }
  assert (Hmx : bx = true -> pre <= mx \/ (bm = true /\ pre = mn)).
  { intros ->. subst pre clampf. cbv beta zeta. destruct bm; lia. }
  rewrite (Hsnap pre q Hb).
  destruct bm; cbn [andb].
  - specialize (Hmn eq_refl).
    destruct (Z.ltb_spec (base + k * q) mn) as [Hlt|Hge].
    + assert (Hcase : clampf (base + k * q + k) = base + k * q + k \/
                      base + k * q <= clampf (base + k * q + k)
                        < base + k * q + k).
      { subst clampf. cbv beta zeta. destruct bx; [|lia].
        destruct (Hmx eq_refl) as [?|[_ ?]]; lia. }
      destruct Hcase as [Heq|Hin].
      * rewrite Heq. rewrite (Hsnap _ (q + 1)) by lia. cbn [andb].
        destruct (Z.ltb_spec (base + k * (q + 1)) mn); lia.
      * rewrite (Hsnap _ q Hin). cbn [andb].
        destruct (Z.ltb_spec (base + k * q) mn); lia.
    + assert (Heq : clampf (base + k * q) = base + k * q).
      { subst clampf. cbv beta zeta. destruct bx; [|lia].
        destruct (Hmx eq_refl) as [?|[_ ?]]; lia. }
      rewrite Heq. rewrite (Hsnap _ q) by lia. cbn [andb].
      destruct (Z.ltb_spec (base + k * q) mn); lia.
  - assert (Heq : clampf (base + k * q) = base + k * q).
    { subst clampf. cbv beta zeta. destruct bx; [|lia].
      destruct (Hmx eq_refl) as [?|[? _]]; [lia|discriminate]. }
    rewrite Heq. by rewrite (Hsnap _ q) by lia.
Qed.

(** The width that [move_resize] gives for a requested content width. *)
Lemma constrain_width_stable current (h : WMNormalHints) (w : Z) :
  0 <= width_inc h ->
  let f := fun w => Window.snap_width current (Some h)
                      (Window.clamp_width (Some h) w) in
  f (f w) = f w.
Proof.
  intros Hk f. subst f. cbv beta.
  unfold Window.snap_width, Window.clamp_width, when_hint.
  destruct (truthy (width_inc h)) eqn:Hinc.
  - apply truthy_true in Hinc.
    apply (clamp_snap_stable (width_inc h) (Window.width_base current h)
             (min_width h) (max_width h) (truthy (min_width h))
             (truthy (max_width h)) w).
    lia.
  - destruct (truthy (min_width h)), (truthy (max_width h)); lia.
Qed.

(** X8: the width of a request is stable: when the width that
    [move_resize] gives (with the borders added again) is requested once
    more under the same hints, with an increment that is not negative,
    that same width is given. *)
Theorem move_resize_width_stable (l r t b : Z) current h geometry geometry'
    on_resize on_resize' :
  0 <= width_inc h ->
  let cfg := Window.move_resize (l, r, t, b) current (Some h) geometry
               on_resize in
  Geometry.width geometry' = Window.cfg_width cfg + (l + r) ->
  Window.cfg_width
    (Window.move_resize (l, r, t, b) current (Some h) geometry' on_resize')
  = Window.cfg_width cfg.
Proof.
  intros Hk cfg Hw. subst cfg. rewrite !move_resize_width in *.
  unfold Window.requested_size in *. cbn [fst] in *.
  rewrite Hw.
  set (w0 := Geometry.width geometry - (l + r)).
  replace (Window.snap_width current (Some h)
             (Window.clamp_width (Some h) w0) + (l + r) - (l + r))
    with (Window.snap_width current (Some h)
            (Window.clamp_width (Some h) w0)) by lia.
  apply (constrain_width_stable current h w0 Hk).
Qed.

Lemma move_resize_width_stable_witness :
  let h := mkHints 100 0 110 0 30 0 0 0 1 in
  let cfg := Window.move_resize (2, 2, 20, 2) (0, 0, 0, 0) (Some h)
               (Geometry.init 0 0 500 500 Geometry.DEFAULT_GRAVITY)
               (Gravity.mk 0 0) in
  Window.cfg_width
    (Window.move_resize (2, 2, 20, 2) (0, 0, 0, 0) (Some h)
       (Geometry.init 0 0 124 500 Geometry.DEFAULT_GRAVITY) (Gravity.mk 1 1))
  = Window.cfg_width cfg.
Proof.
  intros h cfg.
  apply (move_resize_width_stable 2 2 20 2 (0, 0, 0, 0) h
           (Geometry.init 0 0 500 500 Geometry.DEFAULT_GRAVITY)
           (Geometry.init 0 0 124 500 Geometry.DEFAULT_GRAVITY)).
  - vm_compute. discriminate.
  - vm_compute. reflexivity.
Defined.

(** ** More on the registry and the event masks *)

Lemma testbit_foldl_lor (l : list Z) (acc : Z) (i : Z) :
  Z.testbit (foldl Z.lor acc l) i =
  Z.testbit acc i || existsb (fun m => Z.testbit m i) l.
Proof.
  revert acc. induction l as [|m l IH]; intros acc; cbn [foldl existsb].
  - by rewrite orb_false_r.
  - by rewrite IH, Z.lor_spec, orb_assoc.
Qed.

Lemma testbit_or_masks (masks : gset Z) (i : Z) :
  Z.testbit (XObject.or_masks masks) i = true <->
  exists M, M ∈ masks /\ Z.testbit M i = true.
Proof.
  unfold XObject.or_masks. rewrite testbit_foldl_lor, Z.testbit_0_l.
  cbn [orb]. rewrite existsb_exists. split.
  - intros (M & Hin & Hb). exists M. split; [|done].
    by apply elem_of_elements, list_elem_of_In.
  - intros (M & Hin & Hb). exists M. split; [|done].
    by apply list_elem_of_In, elem_of_elements.
Qed.

Lemma or_masks_empty : XObject.or_masks ∅ = 0.
Proof. unfold XObject.or_masks. by rewrite elements_empty. Qed.

Lemma listen_unfold (s : XObject.t) (id : Z) (h : Handler) :
  thread (XObject.dispatcher s) <> Stopped ->
  XObject.listen s id h =
  (XObject.mk
     (mk (<[id := registered_entry (XObject.dispatcher s) id h]>
            (handlers (XObject.dispatcher s))) Started)
     (<[id := XObject.or_masks
                (mask_set (registered_entry (XObject.dispatcher s) id h))]>
        (XObject.event_mask s)),
   Return tt).
Proof.
  intros Hth. unfold XObject.listen. rewrite register_unfold. cbv zeta.
  by destruct (thread (XObject.dispatcher s)).
Qed.

(** X9: after [listen] (on a dispatcher whose thread has not stopped)
    the event mask set on the window is the bitwise or of the masks of
    the handlers registered for it: a bit is set in it exactly when it
    is set in the mask of one of them.  The event masks of the other
    windows are kept. *)
Theorem listen_event_mask (s : XObject.t) (id : Z) (h : Handler) :
  thread (XObject.dispatcher s) <> Stopped ->
  let s' := (XObject.listen s id h).1 in
  (XObject.listen s id h).2 = Return tt /\
  (exists em, XObject.event_mask s' !! id = Some em /\
     forall i, Z.testbit em i = true <->
       exists ty h', handler_of (XObject.dispatcher s') id ty = Some h' /\
                     Z.testbit (mask h') i = true) /\
  (forall id', id' <> id ->
     XObject.event_mask s' !! id' = XObject.event_mask s !! id').
Proof.
  intros Hth s'. subst s'. rewrite (listen_unfold s id h Hth).
  cbn [fst snd XObject.event_mask XObject.dispatcher].
  split; [done|]. split.
  - eexists. split; [apply lookup_insert_eq|].
    intros i. rewrite testbit_or_masks. split.
    + intros (M & HM & Hb). apply elem_of_mask_set in HM as (ty & h' & Hl & <-).
      exists ty, h'. split; [|done].
      by rewrite (handler_of_entry _ _ id ty _ (lookup_insert_eq _ _ _)).
    + intros (ty & h' & Hof & Hb).
      rewrite (handler_of_entry _ _ id ty _ (lookup_insert_eq _ _ _)) in Hof.
      exists (mask h'). split; [|done]. apply elem_of_mask_set. eauto.
  - intros id' Hne. by rewrite lookup_insert_ne.
Qed.

Lemma listen_event_mask_witness :
  let s := XObject.mk init ∅ in
  let h1 := mkHandler 1 4 [2] in
  let h2 := mkHandler 2 8 [3] in
  (XObject.listen (XObject.listen s 7 h1).1 7 h2).2 = Return tt.
Proof.
  intros s h1 h2.
  apply (listen_event_mask (XObject.listen s 7 h1).1 7 h2).
  vm_compute. discriminate.
Defined.

Lemma foldl_insert_delete (h : Handler) (tys : list Z) :
  foldl (fun d ty => delete ty d)
        (foldl (fun d ty => <[ty := h]> d) (∅ : gmap Z Handler) tys) tys = ∅.
Proof.
  apply map_empty. intros ty.
  rewrite foldl_delete_lookup, foldl_insert_lookup.
  by case_decide.
Qed.

(** X10: on a window that has no entry in the registry, [listen] with a
    handler followed by [unlisten], with that handler or with none,
    gives the registry back as it was; the event mask of the window is
    left at [0]. *)
Theorem listen_unlisten_roundtrip (s : XObject.t) (id : Z) (h : Handler)
    (oh : option Handler) :
  handlers (XObject.dispatcher s) !! id = None ->
  thread (XObject.dispatcher s) <> Stopped ->
  oh = None \/ oh = Some h ->
  let s1 := (XObject.listen s id h).1 in
  let s2 := (XObject.unlisten s1 id oh).1 in
  (XObject.unlisten s1 id oh).2 = Return tt /\
  handlers (XObject.dispatcher s2) = handlers (XObject.dispatcher s) /\
  XObject.event_mask s2 !! id = Some 0.
Proof.
  intros Hid Hth Hoh s1 s2. subst s2 s1.
  rewrite (listen_unfold s id h Hth). cbn [fst].
  unfold XObject.unlisten. cbn [XObject.dispatcher XObject.event_mask].
  set (d1 := mk _ Started).
  assert (Hd1 : handlers d1 !! id
                = Some (registered_entry (XObject.dispatcher s) id h)).
  { subst d1. cbn. apply lookup_insert_eq. }
  assert (Hun : unregister d1 id oh =
                (mk (handlers (XObject.dispatcher s)) Started, Return ∅)).
  { destruct Hoh as [->| ->].
    - rewrite (unregister_all d1 id _ Hd1). subst d1. cbn.
      by rewrite delete_insert_id.
    - assert (Hempty : foldl (fun d ty => delete ty d)
                         (registered_entry (XObject.dispatcher s) id h)
                         (types h) = ∅).
      { unfold registered_entry. rewrite Hid. apply foldl_insert_delete. }
      rewrite (unregister_handler d1 id h _ Hd1). cbv zeta.
      rewrite Hempty, decide_True by done.
      subst d1. cbn. by rewrite delete_insert_id. }
  rewrite Hun. cbn [fst snd XObject.dispatcher XObject.event_mask handlers].
  split; [done|]. split; [done|].
  by rewrite lookup_insert_eq, or_masks_empty.
Qed.

Lemma listen_unlisten_roundtrip_witness :
  let s := XObject.mk init ∅ in
  let h := mkHandler 1 4 [2; 3] in
  handlers (XObject.dispatcher
              (XObject.unlisten (XObject.listen s 7 h).1 7 (Some h)).1) = ∅.
Proof.
  intros s h.
  apply (listen_unlisten_roundtrip s 7 h (Some h)).
  - reflexivity.
  - discriminate.
  - by right.
Defined.

(** X11: registering the same handler for the same window a second time
    changes nothing: the dispatcher and the masks returned are those of
    the first call. *)
Theorem register_idempotent (d : t) (w : Z) (h : Handler) :
  thread d <> Stopped ->
  register (register d w h).1 w h = register d w h.
Proof.
  intros Hth.
  assert (He : registered_entry (register d w h).1 w h
               = registered_entry d w h).
  { unfold registered_entry at 1. rewrite register_handlers, lookup_insert_eq.
    cbn [default]. apply map_eq. intros ty.
    rewrite foldl_insert_lookup. case_decide as Hin; [|done].
    unfold registered_entry. rewrite foldl_insert_lookup.
    by rewrite decide_True. }
  rewrite (register_unfold (register d w h).1). cbv zeta.
  rewrite He, register_handlers, insert_insert_eq.
  destruct (register_result d w h Hth) as [_ ->].
  rewrite register_unfold. cbv zeta. by destruct (thread d).
Qed.

Lemma register_idempotent_witness :
  let h := mkHandler 1 4 [2; 3] in
  register (register init 7 h).1 7 h = register init 7 h.
Proof.
  intros h. apply register_idempotent. discriminate.
Defined.

Lemma unregister_other_window (d : t) (w w' : Z) (oh : option Handler) :
  w' <> w -> handlers (unregister d w oh).1 !! w' = handlers d !! w'.
Proof.
  intros Hne. destruct (handlers d !! w) as [d0|] eqn:Hw.
  - destruct oh as [h|].
    + rewrite (unregister_handler d w h d0 Hw). cbv zeta.
      case_decide; cbn [fst handlers].
      * by rewrite lookup_delete_ne.
      * by rewrite lookup_insert_ne.
    + rewrite (unregister_all d w d0 Hw). cbn [fst handlers].
      by rewrite lookup_delete_ne.
  - by rewrite (unregister_unknown_window d w oh Hw).
Qed.

(** X12: [register] and [unregister] for a window leave the handlers of
    every other window as they are, so that the events of the other
    windows are dispatched as before. *)
Theorem other_windows_untouched (d : t) (w w' : Z) (h : Handler)
    (oh : option Handler) (e : XEvent) :
  w' <> w ->
  handlers (register d w h).1 !! w' = handlers d !! w' /\
  handlers (unregister d w oh).1 !! w' = handlers d !! w' /\
  (ev_window e = w' ->
   dispatch (register d w h).1 e = dispatch d e /\
   dispatch (unregister d w oh).1 e = dispatch d e).
Proof.
  intros Hne.
  assert (Hr : handlers (register d w h).1 !! w' = handlers d !! w').
  { rewrite register_handlers. by rewrite lookup_insert_ne. }
  pose proof (unregister_other_window d w w' oh Hne) as Hu.
  split; [exact Hr|]. split; [exact Hu|].
  intros He. unfold dispatch. by rewrite He, Hr, Hu.
Qed.

Lemma other_windows_untouched_witness :
  let h1 := mkHandler 1 4 [2] in
  let h2 := mkHandler 2 8 [2] in
  let d := (register init 7 h1).1 in
  dispatch (register d 8 h2).1 (mkEvent 7 2) = dispatch d (mkEvent 7 2).
Proof.
  intros h1 h2 d.
  destruct (other_windows_untouched d 8 7 h2 None (mkEvent 7 2))
    as (_ & _ & H); [discriminate|].
  by apply H.
Defined.

(** X13: [register] with a handler that declares no event type, for a
    window without entry, returns the empty set of masks and leaves an
    empty entry for the window.  The registry is then not empty: the
    loop of [run] goes on although no handler is there, and the events
    for the window are skipped, not reported. *)
Theorem register_without_types (d : t) (w : Z) (h : Handler) :
  types h = [] ->
  handlers d !! w = None ->
  thread d <> Stopped ->
  let d' := (register d w h).1 in
  (register d w h).2 = Return ∅ /\
  handlers d' !! w = Some ∅ /\
  (forall ty, handlers_for d' w ty = []) /\
  (forall ty, dispatch d' (mkEvent w ty) = Skipped) /\
  (forall pending, (run_turn d' pending).1 = d' /\ thread d' = Started).
Proof.
  intros Hty Hw Hth d'.
  assert (He : registered_entry d w h = ∅).
  { unfold registered_entry. by rewrite Hty, Hw. }
  assert (Hd' : d' = mk (<[w := ∅]> (handlers d)) Started).
  { subst d'. rewrite register_unfold, He. cbv zeta. by destruct (thread d). }
  destruct (register_result d w h Hth) as [Hr _].
  rewrite He, mask_set_empty in Hr.
  split; [exact Hr|]. rewrite Hd'. cbn [handlers thread].
  split; [apply lookup_insert_eq|]. split; [|split].
  - intros ty. unfold handlers_for. cbn [handlers].
    by rewrite lookup_insert_eq, map_to_list_empty.
  - intros ty. unfold dispatch. cbn [handlers ev_window ev_type].
    by rewrite lookup_insert_eq, lookup_empty.
  - intros pending. split; [|done]. unfold run_turn. cbn [handlers].
    rewrite decide_False by apply insert_non_empty. done.
Qed.

Lemma register_without_types_witness :
  let h := mkHandler 1 4 [] in
  (register init 7 h).2 = Return ∅ /\
  dispatch (register init 7 h).1 (mkEvent 7 2) = Skipped.
Proof.
  intros h.
  destruct (register_without_types init 7 h) as (Hr & _ & _ & Hd & _);
    [reflexivity | reflexivity | discriminate |].
  split; [exact Hr | exact (Hd 2)].
Defined.

Lemma handler_of_unregister (d : t) (w : Z) (oh : option Handler)
    (w' ty : Z) (h : Handler) :
  handler_of (unregister d w oh).1 w' ty = Some h ->
  handler_of d w' ty = Some h.
Proof.
  destruct (decide (w' = w)) as [->|Hne].
  - destruct (handlers d !! w) as [d0|] eqn:Hw.
    + destruct oh as [h0|].
      * rewrite (unregister_handler d w h0 d0 Hw). cbv zeta.
        unfold handler_of. case_decide; cbn [fst handlers].
        -- by rewrite lookup_delete_eq.
        -- rewrite lookup_insert_eq, Hw. cbn.
           rewrite foldl_delete_lookup. by case_decide.
      * rewrite (unregister_all d w d0 Hw). unfold handler_of.
        cbn [fst handlers]. by rewrite lookup_delete_eq.
    + by rewrite (unregister_unknown_window d w oh Hw).
  - unfold handler_of. by rewrite unregister_other_window.
Qed.

Lemma declared_step (d : t) (a : action) :
  declared d ->
  declared (step d a).1 /\
  (forall ds h e, (step d a).2 = Dispatched ds ->
                  HandleEvent h e ∈ ds -> ev_type e ∈ types h).
Proof.
  intros Hd. destruct a as [w h|w oh|pending]; cbn [step].
  - destruct (register d w h) as [s r] eqn:Hr. cbn [fst snd].
    split; [|intros ? ? ? [=]].
    intros w' ty h'. replace s with (register d w h).1 by by rewrite Hr.
    rewrite handler_of_register. case_decide as Hc.
    + intros [= <-]. by destruct Hc.
    + apply Hd.
  - destruct (unregister d w oh) as [s r] eqn:Hr. cbn [fst snd].
    split; [|intros ? ? ? [=]].
    intros w' ty h'. replace s with (unregister d w oh).1 by by rewrite Hr.
    intros H. eapply Hd, handler_of_unregister, H.
  - destruct (isAlive (thread d)); cbn [fst snd];
      [|split; [done|intros ? ? ? [=]]].
    unfold run_turn. case_decide as Hempty; cbn [fst snd].
    + split.
      * intros w ty h'. unfold handler_of. cbn [handlers]. apply Hd.
      * intros ds h e [= <-] Hin. by apply elem_of_nil in Hin.
    + split; [done|]. intros ds h e [= <-] Hin.
      apply list_elem_of_fmap in Hin as (e' & Heq & _).
      unfold dispatch in Heq.
      destruct (handlers d !! ev_window e') as [d0|] eqn:Hw; [|done].
      destruct (d0 !! ev_type e') as [h0|] eqn:Hty; [|done].
      injection Heq as -> ->. apply (Hd (ev_window e')).
      unfold handler_of. by rewrite Hw.
Qed.

(** X14: whatever is registered, unregistered and dispatched from a new
    dispatcher on, a handler is called only with events of a type it
    declares: this holds for every event handed over in a turn of the
    loop, and for what [__dispatch] does in the state reached. *)
Theorem handlers_get_declared_types (acts : list action) :
  (forall ds h e, Dispatched ds ∈ (exec init acts).2 ->
                  HandleEvent h e ∈ ds -> ev_type e ∈ types h) /\
  (forall e e' h, dispatch (exec init acts).1 e = HandleEvent h e' ->
                  e' = e /\ ev_type e ∈ types h).
Proof.
  assert (Hgen : forall acts d, declared d ->
    declared (exec d acts).1 /\
    (forall ds h e, Dispatched ds ∈ (exec d acts).2 ->
                    HandleEvent h e ∈ ds -> ev_type e ∈ types h)).
  { clear acts. induction acts as [|a acts IH]; intros d Hd; cbn [exec].
    - split; [done|]. intros ds h e Hin. by apply elem_of_nil in Hin.
    - destruct (declared_step d a Hd) as [Hs Ho].
      destruct (step d a) as [s o]. cbn [fst snd] in *.
      destruct (IH s Hs) as [IH1 IH2].
      destruct (exec s acts) as [s' os]. cbn [fst snd] in *.
      split; [done|]. intros ds h e [Heq|Hin]%elem_of_cons Hh.
      + by eapply Ho.
      + by eapply IH2. }
  assert (Hinit : declared init).
  { intros w ty h. unfold handler_of. cbn. by rewrite lookup_empty. }
  destruct (Hgen acts init Hinit) as [Hd Ho].
  split; [exact Ho|].
  intros e e' h Hdisp. unfold dispatch in Hdisp.
  destruct (handlers (exec init acts).1 !! ev_window e) as [d0|] eqn:Hw;
    [|done].
  destruct (d0 !! ev_type e) as [h0|] eqn:Hty; [|done].
  injection Hdisp as <- <-. split; [done|].
  apply (Hd (ev_window e)). unfold handler_of. by rewrite Hw.
Qed.

Lemma no_empty_entry_step (d : t) (a : action) :
  (forall w h, a = CallRegister w h -> types h <> []) ->
  no_empty_entry d -> no_empty_entry (step d a).1.
Proof.
  intros Hty Hd. destruct a as [w h|w oh|pending]; cbn [step].
  - destruct (register d w h) as [s r] eqn:Hr. cbn [fst].
    replace s with (register d w h).1 by by rewrite Hr.
    intros w' d0. rewrite register_handlers.
    destruct (decide (w' = w)) as [->|Hne].
    + rewrite lookup_insert_eq. intros [= <-] Hempty.
      specialize (Hty w h eq_refl).
      destruct (types h) as [|ty tys] eqn:Htys; [done|].
      assert (Hl : registered_entry d w h !! ty = Some h).
      { unfold registered_entry. rewrite foldl_insert_lookup, Htys.
        rewrite decide_True; [done|]. by apply elem_of_cons; left. }
      by rewrite Hempty, lookup_empty in Hl.
    + rewrite lookup_insert_ne by done. apply Hd.
  - destruct (unregister d w oh) as [s r] eqn:Hr. cbn [fst].
    replace s with (unregister d w oh).1 by by rewrite Hr.
    intros w' d0. destruct (decide (w' = w)) as [->|Hne].
    + destruct (handlers d !! w) as [d1|] eqn:Hw.
      * destruct oh as [h0|].
        -- rewrite (unregister_handler d w h0 d1 Hw). cbv zeta.
           case_decide; cbn [fst handlers].
           ++ by rewrite lookup_delete_eq.
           ++ rewrite lookup_insert_eq. by intros [= <-].
        -- rewrite (unregister_all d w d1 Hw). cbn [fst handlers].
           by rewrite lookup_delete_eq.
      * rewrite (unregister_unknown_window d w oh Hw). cbn [fst].
        by rewrite Hw.
    + rewrite unregister_other_window by done. apply Hd.
  - destruct (isAlive (thread d)); cbn [fst]; [|done].
    unfold run_turn. by case_decide.
Qed.

(** X15: when every handler that is registered declares a type, no
    window ever has an entry without handlers, from a new dispatcher
    on; the registry is then empty, which is what ends the loop of
    [run], exactly when no handler is registered for any window and
    type. *)
Theorem registry_empty_iff_no_handler (acts : list action) :
  all_typed acts ->
  let d := (exec init acts).1 in
  no_empty_entry d /\
  (handlers d = ∅ <-> forall w ty, handler_of d w ty = None).
Proof.
  intros Hty d.
  assert (Hgen : forall acts s, all_typed acts -> no_empty_entry s ->
                                no_empty_entry (exec s acts).1).
  { clear. induction acts as [|a acts IH]; intros s Hty Hs; cbn [exec].
    - done.
    - assert (Hs' : no_empty_entry (step s a).1).
      { apply no_empty_entry_step; [|done]. intros w h ->.
        apply (Hty w h). by apply elem_of_cons; left. }
      destruct (step s a) as [s1 o]. cbn [fst] in Hs'.
      assert (Hty' : all_typed acts).
      { intros w h Hin. apply (Hty w h). by apply elem_of_cons; right. }
      specialize (IH s1 Hty' Hs').
      by destruct (exec s1 acts) as [s' os]. }
  assert (Hd : no_empty_entry d).
  { apply Hgen; [done|]. intros w d0. cbn. by rewrite lookup_empty. }
  split; [exact Hd|]. split.
  - intros Hempty w ty. unfold handler_of. by rewrite Hempty, lookup_empty.
  - intros Hnone. apply map_empty. intros w.
    destruct (handlers d !! w) as [d0|] eqn:Hw; [|done].
    exfalso. apply (Hd w d0 Hw). apply map_empty. intros ty.
    specialize (Hnone w ty). unfold handler_of in Hnone.
    by rewrite Hw in Hnone.
Qed.

Lemma registry_empty_iff_no_handler_witness :
  let h := mkHandler 1 4 [2] in
  no_empty_entry
    (exec init [CallRegister 7 h; CallRegister 8 h; CallUnregister 7 None]).1.
Proof.
  intros h.
  apply (registry_empty_iff_no_handler
           [CallRegister 7 h; CallRegister 8 h; CallUnregister 7 None]).
  intros w h' Hin.
  repeat (apply elem_of_cons in Hin as [Hin|Hin];
          [try discriminate Hin; injection Hin as _ ->; discriminate|]).
  by apply elem_of_nil in Hin.
Defined.

(** X16: once the thread of the dispatcher has stopped, [listen] raises
    [RuntimeError] and sets no event mask, yet the handler is stored in
    the registry; whatever is done afterwards, no event is dispatched
    any more. *)
Theorem listen_after_stop (s : XObject.t) (id : Z) (h : Handler)
    (acts : list action) :
  thread (XObject.dispatcher s) = Stopped ->
  let s' := (XObject.listen s id h).1 in
  (XObject.listen s id h).2
    = Raise (RuntimeError "threads can only be started once") /\
  XObject.event_mask s' = XObject.event_mask s /\
  (forall ty, ty ∈ types h ->
              handler_of (XObject.dispatcher s') id ty = Some h) /\
  (forall ds, Dispatched ds ∉ (exec (XObject.dispatcher s') acts).2).
Proof.
  intros Hth s'.
  assert (Hl : XObject.listen s id h =
               (XObject.mk (register (XObject.dispatcher s) id h).1
                           (XObject.event_mask s),
                Raise (RuntimeError "threads can only be started once"))).
  { unfold XObject.listen. rewrite register_unfold, Hth. done. }
  subst s'. rewrite Hl. cbn [fst snd XObject.event_mask XObject.dispatcher].
  split; [done|]. split; [done|]. split.
  - intros ty Hty. rewrite handler_of_register. by rewrite decide_True.
  - apply exec_stopped.
    by apply (register_stopped (XObject.dispatcher s) id h).
Qed.

Lemma listen_after_stop_witness :
  let h := mkHandler 1 4 [2] in
  let d := (exec init [CallRegister 7 h; CallUnregister 7 None; Wake []]).1 in
  (XObject.listen (XObject.mk d ∅) 7 h).2
    = Raise (RuntimeError "threads can only be started once").
Proof.
  intros h d.
  apply (listen_after_stop (XObject.mk d ∅) 7 h []).
  vm_compute. reflexivity.
Defined.

(** X17: [unlisten] for a window that has no entry in the registry
    raises [KeyError] and changes nothing.  So a second [unlisten] after
    an [unlisten] of all handlers of a window raises. *)
Theorem unlisten_unknown_window (s : XObject.t) (id : Z)
    (oh oh' : option Handler) :
  (handlers (XObject.dispatcher s) !! id = None ->
   XObject.unlisten s id oh = (s, Raise (KeyError id))) /\
  (is_Some (handlers (XObject.dispatcher s) !! id) ->
   let s1 := (XObject.unlisten s id None).1 in
   (XObject.unlisten s id None).2 = Return tt /\
   XObject.unlisten s1 id oh' = (s1, Raise (KeyError id))).
Proof.
  assert (Hunk : forall s0 o, handlers (XObject.dispatcher s0) !! id = None ->
            XObject.unlisten s0 id o = (s0, Raise (KeyError id))).
  { intros s0 o Hid. unfold XObject.unlisten.
    rewrite (unregister_unknown_window _ id o Hid). by destruct s0. }
  split; [apply Hunk|].
  intros [d0 Hid] s1.
  assert (Hu : XObject.unlisten s id None =
               (XObject.mk (mk (delete id (handlers (XObject.dispatcher s)))
                               (thread (XObject.dispatcher s)))
                           (<[id := XObject.or_masks ∅]> (XObject.event_mask s)),
                Return tt)).
  { unfold XObject.unlisten. by rewrite (unregister_all _ id d0 Hid). }
  subst s1. rewrite Hu. cbn [fst snd]. split; [done|].
  apply Hunk. cbn. apply lookup_delete_eq.
Qed.

Lemma unlisten_unknown_window_witness :
  let h := mkHandler 1 4 [2] in
  let s := (XObject.listen (XObject.mk init ∅) 7 h).1 in
  XObject.unlisten (XObject.mk init ∅) 7 None
    = (XObject.mk init ∅, Raise (KeyError 7)) /\
  (XObject.unlisten (XObject.unlisten s 7 None).1 7 None).2
    = Raise (KeyError 7).
Proof.
  intros h s.
  split.
  - by apply (proj1 (unlisten_unknown_window (XObject.mk init ∅) 7 None None)).
  - destruct (proj2 (unlisten_unknown_window s 7 None None)) as [_ ->].
    + vm_compute. eauto.
    + reflexivity.
Defined.

(** ** Key codes and window lists *)

Lemma split_without (sep : ascii) (s : string) :
  without sep s -> XObject.split sep s = [s].
Proof.
  unfold without. induction s as [|c s IH]; cbn; [done|].
  intros Hnot. destruct (Ascii.eqb_spec c sep) as [->|Hne].
  - exfalso. apply Hnot. by left.
  - rewrite IH; [done|]. intros Hin. apply Hnot. by right.
Qed.

Lemma split_append (sep : ascii) (p rest : string) :
  without sep p ->
  XObject.split sep (p ++ String sep rest) = p :: XObject.split sep rest.
Proof.
  unfold without. induction p as [|c p IH].
  - intros _. change ("" ++ String sep rest)%string with (String sep rest).
    cbn [XObject.split]. by rewrite Ascii.eqb_refl.
  - change (String c p ++ String sep rest)%string
      with (String c (p ++ String sep rest)).
    cbn [list_ascii_of_string XObject.split]. intros Hnot.
    destruct (Ascii.eqb_spec c sep) as [->|Hne].
    + exfalso. apply Hnot. by left.
    + rewrite IH; [done|]. intros Hin. apply Hnot. by right.
Qed.

Lemma split_concat (sep : ascii) (parts : list string) :
  parts <> [] ->
  Forall (without sep) parts ->
  XObject.split sep (String.concat (String sep "") parts) = parts.
Proof.
  induction parts as [|p parts IH]; [done|]. intros _ Hall.
  apply Forall_cons in Hall as [Hp Hall].
  destruct parts as [|p' parts].
  - cbn. by apply split_without.
  - cbn [String.concat]. change (String sep "" ++ ?s)%string with (String sep s).
    rewrite split_append by done. f_equal. by apply IH.
Qed.

Lemma testbit_or_modifiers_from (masks : list string) (acc i : Z) :
  Z.testbit
    (foldl (fun modifiers mask =>
              match XObject.dict_get XObject.KEY_MODIFIERS mask with
              | None => modifiers
              | Some m => Z.lor modifiers m
              end) acc masks) i =
  Z.testbit acc i ||
  existsb (fun mask =>
             match XObject.dict_get XObject.KEY_MODIFIERS mask with
             | None => false
             | Some m => Z.testbit m i
             end) masks.
Proof.
  revert acc. induction masks as [|m masks IH]; intros acc;
    cbn [foldl existsb].
  - by rewrite orb_false_r.
  - rewrite IH.
    destruct (XObject.dict_get XObject.KEY_MODIFIERS m).
    + by rewrite Z.lor_spec, orb_assoc.
    + done.
Qed.

Lemma testbit_or_modifiers (masks : list string) (i : Z) :
  Z.testbit (XObject.or_modifiers masks) i = true <->
  exists mask m, In mask masks /\
    XObject.dict_get XObject.KEY_MODIFIERS mask = Some m /\
    Z.testbit m i = true.
Proof.
  unfold XObject.or_modifiers.
  rewrite testbit_or_modifiers_from, Z.testbit_0_l. cbn [orb].
  rewrite existsb_exists. split.
  - intros (mask & Hin & Hb).
    destruct (XObject.dict_get XObject.KEY_MODIFIERS mask) as [m|] eqn:Hm;
      [|done].
    by exists mask, m.
  - intros (mask & m & Hin & Hm & Hb). exists mask. by rewrite Hm.
Qed.

(** X18: [keycode] with a [code] without ['-'] and no [key] raises
    [IndexError]: the only part of the code is taken as the key, and no
    part is left where the first modifier is read. *)
Theorem keycode_plain_key_raises (to_keysym : string -> Z)
    (to_keycode : Z -> Z) (code : string) :
  without "-" code ->
  XObject.keycode to_keysym to_keycode code ""
  = inl (IndexError "list index out of range").
Proof.
  intros Hno. unfold XObject.keycode. by rewrite split_without.
Qed.

Lemma keycode_plain_key_raises_witness :
  XObject.keycode (fun _ => 0) (fun k => k) "F12" ""
  = inl (IndexError "list index out of range").
Proof.
  apply keycode_plain_key_raises.
  unfold without. cbn. intros H.
  repeat (destruct H as [H|H]; [discriminate H|]). exact H.
Defined.

(** X19: for modifier names and a key without ['-'], joined by ['-'],
    [keycode] splits the code into these parts again: with no [key]
    given the last part is the key and the parts before it are the
    modifiers, with a [key] given all parts are modifiers.  The
    modifiers are or-ed together unless the first name is empty, where
    the result is [AnyModifier]. *)
Theorem keycode_joined (to_keysym : string -> Z) (to_keycode : Z -> Z)
    (mods : list string) (key : string) :
  mods <> [] ->
  Forall (without "-") mods ->
  without "-" key ->
  let modifiers :=
    if negb (String.eqb (hd ""%string mods) "") then XObject.or_modifiers mods
    else XObject.AnyModifier in
  XObject.keycode to_keysym to_keycode (String.concat "-" (mods ++ [key])) ""
  = inr (modifiers, to_keycode (to_keysym key)) /\
  (key <> ""%string ->
   XObject.keycode to_keysym to_keycode (String.concat "-" mods) key
   = inr (modifiers, to_keycode (to_keysym key))).
Proof.
  intros Hne Hmods Hkey modifiers. split.
  - unfold XObject.keycode. rewrite split_concat.
    + cbn [String.eqb]. rewrite last_last, removelast_last.
      destruct mods as [|m mods]; [done|]. reflexivity.
    + by destruct mods.
    + apply Forall_app. split; [done|]. by apply Forall_singleton.
  - intros Hk. unfold XObject.keycode. rewrite split_concat by done.
    assert (String.eqb key "" = false) as -> by by apply String.eqb_neq.
    destruct mods as [|m mods]; [done|]. reflexivity.
Qed.

Lemma keycode_joined_witness :
  XObject.keycode (fun _ => 38) (fun k => k) "Ctrl-Alt-a" ""
  = inr (12, 38).
Proof.
  assert (Hw : forall s, (forallb (fun c => negb (Ascii.eqb c "-"))
                            (list_ascii_of_string s)) = true ->
                         without "-" s).
  { intros s Hs Hin. rewrite forallb_forall in Hs.
    specialize (Hs _ Hin). by rewrite Ascii.eqb_refl in Hs. }
  assert (H1 : ["Ctrl"; "Alt"]%string <> []) by discriminate.
  assert (H2 : Forall (without "-") ["Ctrl"; "Alt"]%string)
    by (repeat constructor; by apply Hw).
  assert (H3 : without "-" "a") by by apply Hw.
  exact (proj1 (keycode_joined (fun _ => 38) (fun k => k)
                  ["Ctrl"; "Alt"]%string "a" H1 H2 H3)).
Defined.

(** X20: a bit is set in the modifiers or-ed by [keycode] exactly when
    it is set in the mask of a known modifier among the names; names
    that are not modifiers add nothing, and the result depends only on
    which names occur, not on their order or number. *)
Theorem or_modifiers_bits (masks masks' : list string) :
  (forall i, Z.testbit (XObject.or_modifiers masks) i = true <->
     exists mask m, In mask masks /\
       XObject.dict_get XObject.KEY_MODIFIERS mask = Some m /\
       Z.testbit m i = true) /\
  ((forall mask, In mask masks <-> In mask masks') ->
   XObject.or_modifiers masks = XObject.or_modifiers masks') /\
  XObject.or_modifiers
    (List.filter
       (fun mask => match XObject.dict_get XObject.KEY_MODIFIERS mask with
                    | Some _ => true
                    | None => false
                    end) masks)
  = XObject.or_modifiers masks.
Proof.
  split; [intros i; apply testbit_or_modifiers|]. split.
  - intros Hsame. apply Z.bits_inj. intros i.
    apply eq_true_iff_eq. rewrite !testbit_or_modifiers.
    split; intros (mask & m & Hin & Hrest); exists mask, m;
      (split; [by apply Hsame|done]).
  - apply Z.bits_inj. intros i.
    apply eq_true_iff_eq. rewrite !testbit_or_modifiers.
    split; intros (mask & m & Hin & Hm & Hb); exists mask, m.
    + apply filter_In in Hin as [Hin _]. done.
    + split; [|done]. apply filter_In. by rewrite Hm.
Qed.

Lemma or_modifiers_bits_witness :
  XObject.or_modifiers ["Ctrl"; "Alt"]%string
  = XObject.or_modifiers ["Alt"; "Ctrl"; "Alt"]%string.
Proof.
  apply (proj1 (proj2 (or_modifiers_bits ["Ctrl"; "Alt"]%string
                         ["Alt"; "Ctrl"; "Alt"]%string))).
  intros mask. cbn [In]. tauto.
Defined.

(** X21: [windows] called with its default [filter_method], [None],
    raises [TypeError] as soon as there is a window, and returns the
    empty list when there is none; with a filter it returns the windows
    that pass it, in the stacking order of [windows_ids]. *)
Theorem windows_default_filter (ids : list Z) (f : Z -> bool) :
  (ids <> [] ->
   WindowManager.windows ids None
   = inl (TypeError "'NoneType' object is not callable")) /\
  WindowManager.windows [] None = inr [] /\
  (exists ws, WindowManager.windows ids (Some f) = inr ws /\
     sublist ws ids /\ forall w, w ∈ ws <-> w ∈ ids /\ f w = true).
Proof.
  split; [by destruct ids|]. split; [done|].
  exists (List.filter f ids). split; [done|]. split.
  - induction ids as [|w ids IH]; cbn; [done|].
    destruct (f w); by constructor.
  - intros w. rewrite !list_elem_of_In, filter_In. done.
Qed.

Lemma windows_default_filter_witness :
  WindowManager.windows [3; 5] None
  = inl (TypeError "'NoneType' object is not callable").
Proof.
  by apply (proj1 (windows_default_filter [3; 5] (fun _ => true))).
Defined.
